(** * validate-kata-deploy-options.py: a shallow embedding and its properties

    The script under [.github/scripts/validate-kata-deploy-options.py]
    flattens the upstream kata-deploy [values.yaml] into a list of leaf
    options, looks every option up in the downstream documentation with
    five regular expressions, renders a report and sets the exit status.

    Modelling conventions.
    - Text is [string], the UTF-8 form of a Python [str]: one character of
      7-bit text is one [ascii].  White space ([\s], [strip]) and the case
      folding of [re.IGNORECASE] are modelled on 7-bit text, where they are
      exact; beyond it Python follows Unicode, which is not modelled, and
      the properties that depend on what a character is are stated for
      7-bit text ([seven_bit]).
    - A [Path] is carried by the text it was built from; [Pathlib.fspath]
      is its [str()], which is what reaches the file system and the
      messages.
    - A YAML document is a [value]; mapping keys are strings, as in a chart's
      values file, and a mapping is an association list in insertion order.
    - [ConfigOption] objects live in a heap; lists hold references, so the
      in-place updates of [description] and [documented_in] are seen through
      every alias.
    - Input and output go through a small monad over a read-only [world]
      (files, [/tmp], the network) and a state made of the heap and the
      trace of effects.
    - [yaml.safe_load], [str()] on a YAML value and the [:.1f] rendering of
      a float are taken as parameters of the development. *)

From Stdlib Require Import String Ascii List ZArith Lia Bool DecimalString Permutation Sorted.
From stdpp Require Import gmap strings list.

Set Warnings "-register-all".

(** ** Python text primitives *)

Module Py.

Definition chr (n : nat) : ascii := ascii_of_nat n.

Definition dq : string := String (chr 34) "".
Definition nl : string := String (chr 10) "".

(** The lower case of a character of 7-bit text, as [re.IGNORECASE] and
    [c.lower()] have it there. *)
Definition lower (c : ascii) : ascii :=
  let n := nat_of_ascii c in
  if (65 <=? n)%nat && (n <=? 90)%nat then ascii_of_nat (n + 32) else c.

(** White space among the characters of 7-bit text: what [\s] accepts and
    [strip] removes there (tab to carriage return, the four separators
    from 28 to 31, and the blank). *)
Definition isspace (c : ascii) : bool :=
  let n := nat_of_ascii c in
  ((9 <=? n)%nat && (n <=? 13)%nat) || ((28 <=? n)%nat && (n <=? 32)%nat).

(** [s.startswith(p)] *)
Fixpoint startswith (s p : string) : bool :=
  match p with
  | EmptyString => true
  | String a p' =>
      match s with
      | String b s' => if Ascii.eqb a b then startswith s' p' else false
      | EmptyString => false
      end
  end.

(** Truth value of a string: [bool(s)]. *)
Definition truthy (s : string) : bool :=
  match s with EmptyString => false | _ => true end.

(** [x in xs] for a list of strings. *)
Definition contains (xs : list string) (x : string) : bool :=
  existsb (String.eqb x) xs.

(** A byte that continues a character of more than one byte in UTF-8. *)
Definition continues (c : ascii) : bool :=
  let n := nat_of_ascii c in (128 <=? n)%nat && (n <? 192)%nat.

(** [s[:n]]: the first [n] characters, each with all its bytes. *)
Fixpoint take (n : nat) (s : string) : string :=
  match s with
  | EmptyString => EmptyString
  | String c s' =>
      if continues c then String c (take n s')
      else
        match n with
        | O => EmptyString
        | S n' => String c (take n' s')
        end
  end.

(** [c * n] for a one-character string [c]. *)
Fixpoint repeat (c : ascii) (n : nat) : string :=
  match n with O => EmptyString | S n' => String c (repeat c n') end.

Fixpoint lstrip (s : string) : string :=
  match s with
  | String c s' => if isspace c then lstrip s' else s
  | EmptyString => EmptyString
  end.

(** [s.rstrip()]: a character is dropped when everything from it on is
    white space. *)
Fixpoint rstrip (s : string) : string :=
  match s with
  | EmptyString => EmptyString
  | String c s' =>
      match rstrip s' with
      | EmptyString => if isspace c then EmptyString else String c EmptyString
      | r => String c r
      end
  end.

Definition strip (s : string) : string := rstrip (lstrip s).

(** [str(n)] for a length. *)
Definition str_nat (n : nat) : string := NilZero.string_of_uint (Nat.to_uint n).

(** [sorted(xs, key=key)] on string keys: stable, ascending. *)
Section Sorted.

Context {A : Type} (key : A -> string).

Fixpoint insert_sorted (x : A) (xs : list A) : list A :=
  match xs with
  | [] => [x]
  | y :: ys =>
      if String.leb (key x) (key y) then x :: y :: ys
      else y :: insert_sorted x ys
  end.

Fixpoint sorted (xs : list A) : list A :=
  match xs with
  | [] => []
  | x :: xs' => insert_sorted x (sorted xs')
  end.

End Sorted.

(** [sep.join(xs)] *)
Fixpoint join (sep : string) (xs : list string) : string :=
  match xs with
  | [] => ""
  | [x] => x
  | x :: xs' => x +:+ sep +:+ join sep xs'
  end.

(** [s.split(sep)] for a one-character separator. *)
Fixpoint split (sep : ascii) (s : string) : list string :=
  match s with
  | EmptyString => [EmptyString]
  | String c s' =>
      if Ascii.eqb c sep then EmptyString :: split sep s'
      else
        match split sep s' with
        | x :: xs => String c x :: xs
        | [] => [String c EmptyString]
        end
  end.

(** What reading a file opened with [open(p, 'r')] does to line ends: a
    carriage return, with the line feed after it if there is one, becomes
    one line feed. *)
Fixpoint universal_newlines (s : string) : string :=
  match s with
  | EmptyString => EmptyString
  | String c s' =>
      if Ascii.eqb c (chr 13) then
        String (chr 10)
          match s' with
          | String c' s'' =>
              if Ascii.eqb c' (chr 10) then universal_newlines s''
              else universal_newlines s'
          | EmptyString => EmptyString
          end
      else String c (universal_newlines s')
  end.

End Py.

(** ** The fragment of [pathlib] the script uses, on POSIX *)

Module Pathlib.

(** A pure path: its root ([""], ["/"] or ["//"]) and its components. *)
Record PurePath := mkPath {
  root : string;
  parts : list string;
}.

(** Two leading slashes, and two only, are kept; any other number of them
    is one. *)
Definition root_of (s : string) : string :=
  if Py.startswith s "//" && negb (Py.startswith s "///") then "//"
  else if Py.startswith s "/" then "/"
  else "".

(** A component that is kept: not empty and not [.]. *)
Definition is_part (x : string) : bool :=
  negb (String.eqb x "") && negb (String.eqb x ".").

(** [Path(s)] *)
Definition Path (s : string) : PurePath :=
  mkPath (root_of s) (List.filter is_part (Py.split "/" s)).

(** [p / name] *)
Definition joinpath (p : PurePath) (name : string) : PurePath :=
  let q := Path name in
  if Py.truthy (root q) then q else mkPath (root p) (parts p ++ parts q).

(** [str(p)] *)
Definition str (p : PurePath) : string :=
  match root p, parts p with
  | EmptyString, [] => "."
  | r, t => r +:+ Py.join "/" t
  end.

(** [str(Path(s))]: the text under which the path built from [s] reaches
    the file system and the messages. *)
Definition fspath (s : string) : string := str (Path s).

End Pathlib.

(** ** The fragment of [re] the script uses *)

Module Re.

(** A set of characters: a pattern character (compared without case under
    [re.IGNORECASE]), [.], [\s] and [[^c]]. *)
Inductive cset :=
| CChar (c : ascii)
| CAny
| CSpace
| CNot (c : ascii).

(** One element of a pattern: [x], [x*], [x?] and the capturing [(x+)]. *)
Inductive node :=
| One (x : cset)
| Star (x : cset)
| Opt (x : cset)
| Group (x : cset).

Definition regex := list node.

Definition accepts (x : cset) (c : ascii) : bool :=
  match x with
  | CChar a => Ascii.eqb (Py.lower a) (Py.lower c)
  | CAny => negb (Ascii.eqb c (Py.chr 10))
  | CSpace => Py.isspace c
  | CNot a => negb (Ascii.eqb a c)
  end.

(** The pattern text taken literally; [re.escape(s)] compiles to this. *)
Fixpoint escape (s : string) : regex :=
  match s with
  | EmptyString => []
  | String c s' => One (CChar c) :: escape s'
  end.

(** A match anchored at the start of [s]: the text of group 1 ([""] when
    the pattern has no group) and the unread rest.  Repetitions are greedy
    and give back characters on failure, as the backtracking engine does. *)
Fixpoint match_here (r : regex) : string -> option (string * string) :=
  match r with
  | [] => fun s => Some (EmptyString, s)
  | One x :: r' => fun s =>
      match s with
      | String c s' => if accepts x c then match_here r' s' else None
      | EmptyString => None
      end
  | Opt x :: r' => fun s =>
      match s with
      | String c s' =>
          if accepts x c then
            match match_here r' s' with
            | Some m => Some m
            | None => match_here r' s
            end
          else match_here r' s
      | EmptyString => match_here r' s
      end
  | Star x :: r' =>
      fix star (s : string) : option (string * string) :=
        match s with
        | String c s' =>
            if accepts x c then
              match star s' with
              | Some m => Some m
              | None => match_here r' s
              end
            else match_here r' s
        | EmptyString => match_here r' s
        end
  | Group x :: r' =>
      fix plus (s : string) : option (string * string) :=
        match s with
        | String c s' =>
            if accepts x c then
              match plus s' with
              | Some (g, rest) => Some (String c g, rest)
              | None =>
                  match match_here r' s' with
                  | Some (_, rest) => Some (String c EmptyString, rest)
                  | None => None
                  end
              end
            else None
        | EmptyString => None
        end
  end.

(** [re.search(r, s, re.IGNORECASE)]: the leftmost match; [Some g] carries
    [match.group(1)]. *)
Fixpoint search (r : regex) (s : string) : option string :=
  match match_here r s with
  | Some (g, _) => Some g
  | None =>
      match s with
      | String _ s' => search r s'
      | EmptyString => None
      end
  end.

End Re.

(** ** YAML values and configuration options *)

(** What [yaml.safe_load] builds from a values file.  A float is carried by
    its [repr]. *)
Inductive value :=
| VNone
| VBool (b : bool)
| VInt (z : Z)
| VFloat (repr : string)
| VStr (s : string)
| VList (items : list value)
| VDict (items : list (string * value)).

(** [type(v).__name__] *)
Definition type_name (v : value) : string :=
  match v with
  | VNone => "NoneType"
  | VBool _ => "bool"
  | VInt _ => "int"
  | VFloat _ => "float"
  | VStr _ => "str"
  | VList _ => "list"
  | VDict _ => "dict"
  end.

(** [isinstance(v, dict)] *)
Definition is_dict (v : value) : bool :=
  match v with VDict _ => true | _ => false end.

(** The dataclass [ConfigOption]. *)
Record ConfigOption := mkConfigOption {
  name : string;
  path : string;
  type : string;
  default : value;
  description : string;
  documented_in : gset string;
}.

(** [ConfigOption(name=.., path=.., type=.., default=..)] with the two
    defaulted fields. *)
Definition new_option (n p t : string) (d : value) : ConfigOption :=
  mkConfigOption n p t d "" ∅.

(** ** Option Extractor *)

(** [f"{parent_path}.{key}" if parent_path else key] *)
Definition current_path (parent_path key : string) : string :=
  if Py.truthy parent_path then parent_path +:+ "." +:+ key else key.

(** The nested function [extract_options] of [parse_kata_deploy_values];
    the result is what the calls append to [options], in order. *)
Fixpoint extract_options (exclude_options : list string) (data : value)
    (parent_path : string) : list ConfigOption :=
  match data with
  | VDict items =>
      (fix each (items : list (string * value)) : list ConfigOption :=
         match items with
         | [] => []
         | (key, v) :: rest =>
             let cur := current_path parent_path key in
             if Py.startswith key "_" then each rest
             else if Py.contains exclude_options cur then each rest
             else
               let option_type := type_name v in
               match v with
               | VDict _ => extract_options exclude_options v cur ++ each rest
               | _ => new_option key cur option_type v :: each rest
               end
         end) items
  | _ => []
  end.

(** ** Effects: exceptions, the world, the heap and the trace *)

Inductive exn :=
| SystemExit (code : nat)
| ZeroDivisionError
| AttributeError
| TypeError
| FileNotFoundError
| YAMLError
| Stuck.

(** What the process does to its surroundings, in order. *)
Inductive event :=
| EvPrint (text : string)
| EvExists (p : string)
| EvRead (p : string)
| EvStat (p : string)
| EvGet (url : string)
| EvWrite (p text : string).

(** The surroundings, which the script only reads: text files by path (the
    text as stored, line ends included), the
    rendering of [/tmp]'s [st_mtime] ([None] when [/tmp] is missing), whether
    [requests] could be imported, and what [requests.get] answers: the
    message of the exception it raises or the status code and body. *)
Record world := mkWorld {
  files : string -> option string;
  tmp_mtime : option string;
  has_requests : bool;
  http_get : string -> string + (nat * string);
}.

Record state := mkState {
  heap : list ConfigOption;
  trace : list event;
}.

Definition M (A : Type) : Type := state -> (exn + A) * state.

#[global] Instance M_ret : MRet M := fun A x s => (inr x, s).

#[global] Instance M_bind : MBind M := fun A B f m s =>
  match m s with
  | (inr x, s') => f x s'
  | (inl e, s') => (inl e, s')
  end.

Definition raise {A : Type} (e : exn) : M A := fun s => (inl e, s).

Definition emit (e : event) : M unit := fun s =>
  (inr tt, mkState (heap s) (trace s ++ [e])).

(** [ConfigOption(...)]: a fresh object, named by its index in the heap. *)
Definition alloc (o : ConfigOption) : M nat := fun s =>
  (inr (length (heap s)), mkState (heap s ++ [o]) (trace s)).

(** Reading through a reference.  [Stuck] marks a reference to no object,
    which no run of the script can hold. *)
Definition deref (r : nat) : M ConfigOption := fun s =>
  match heap s !! r with
  | Some o => (inr o, s)
  | None => (inl Stuck, s)
  end.

(** An attribute assignment or in-place update of the object at [r]. *)
Definition update (r : nat) (f : ConfigOption -> ConfigOption) : M unit := fun s =>
  match heap s !! r with
  | Some o => (inr tt, mkState (<[r := f o]> (heap s)) (trace s))
  | None => (inl Stuck, s)
  end.

(** [for x in xs: body(x)] *)
Fixpoint for_each {A : Type} (body : A -> M unit) (xs : list A) : M unit :=
  match xs with
  | [] => mret tt
  | x :: xs' => _ ← body x; for_each body xs'
  end.

(** The exit status the shell sees. *)
Definition exit_status {A : Type} (r : exn + A) : nat :=
  match r with
  | inr _ => 0
  | inl (SystemExit code) => code
  | inl _ => 1
  end.

Definition set_description (d : string) (o : ConfigOption) : ConfigOption :=
  mkConfigOption (name o) (path o) (type o) (default o) d (documented_in o).

Definition add_documented_in (p : string) (o : ConfigOption) : ConfigOption :=
  mkConfigOption (name o) (path o) (type o) (default o) (description o)
    ({[ p ]} ∪ documented_in o).

(** ** Python values at work *)

(** [d.get(k, dflt)] on a mapping. *)
Fixpoint dict_get (items : list (string * value)) (k : string) (dflt : value) : value :=
  match items with
  | [] => dflt
  | (k', v) :: rest => if String.eqb k' k then v else dict_get rest k dflt
  end.

(** [v.get(k, dflt)]: only a mapping has the method. *)
Definition py_get (v : value) (k : string) (dflt : value) : M value :=
  match v with
  | VDict items => mret (dict_get items k dflt)
  | _ => raise AttributeError
  end.

Fixpoint chars (s : string) : list value :=
  match s with
  | EmptyString => []
  | String c s' => VStr (String c EmptyString) :: chars s'
  end.

(** What [for x in v] runs over. *)
Definition py_iter (v : value) : M (list value) :=
  match v with
  | VList items => mret items
  | VDict items => mret (map (fun kv => VStr (fst kv)) items)
  | VStr s => mret (chars s)
  | _ => raise TypeError
  end.

(** [v == s] for a string literal [s]. *)
Definition eq_str (v : value) (s : string) : bool :=
  match v with VStr t => String.eqb t s | _ => false end.

(** [bool(v)] *)
Definition truthy_value (v : value) : bool :=
  match v with
  | VNone => false
  | VBool b => b
  | VInt z => negb (z =? 0)%Z
  | VFloat r => negb (String.eqb r "0.0" || String.eqb r "-0.0")
  | VStr s => Py.truthy s
  | VList items => match items with [] => false | _ => true end
  | VDict items => match items with [] => false | _ => true end
  end.

(** [str(Path(p) / name)]: the path [name] under the path built from
    [p]. *)
Definition path_join (p name : string) : string :=
  Pathlib.str (Pathlib.joinpath (Pathlib.Path p) name).

(** ** The script *)

Section Script.

(** [yaml.safe_load(f)] by the text stored in the file [f] (YAML takes a
    carriage return, a line feed and the two together alike as a line
    break); [None] when it raises. *)
Variable safe_load : string -> option value.

(** [str(v)] for a sequence or a mapping. *)
Variable repr_container : value -> string.

(** [f"{d / t * 100:.1f}"] for lengths [d] and [t] with [t] positive. *)
Variable format_pct : nat -> nat -> string.

Variable w : world.

Definition print (text : string) : M unit := emit (EvPrint text).

(** [p.exists()] *)
Definition path_exists (p : string) : M bool :=
  _ ← emit (EvExists p);
  mret (match files w p with Some _ => true | None => false end).

(** [open(p, 'r')]: the text stored under [p]. *)
Definition read_file (p : string) : M string :=
  _ ← emit (EvRead p);
  match files w p with
  | Some text => mret text
  | None => raise FileNotFoundError
  end.

(** [open(p, 'r').read()]: the text with its line ends translated. *)
Definition read_text (p : string) : M string :=
  text ← read_file p;
  mret (Py.universal_newlines text).

(** [Path('/tmp').stat().st_mtime], already rendered. *)
Definition stat_tmp : M string :=
  _ ← emit (EvStat "/tmp");
  match tmp_mtime w with
  | Some m => mret m
  | None => raise FileNotFoundError
  end.

(** Writing a file directly under [/tmp]. *)
Definition write_tmp (p text : string) : M unit :=
  match tmp_mtime w with
  | Some _ => emit (EvWrite p text)
  | None => raise FileNotFoundError
  end.

Definition load (text : string) : M value :=
  match safe_load text with
  | Some v => mret v
  | None => raise YAMLError
  end.

(** [str(v)], also what an f-string puts for [{v}]. *)
Definition str_value (v : value) : string :=
  match v with
  | VNone => "None"
  | VBool b => if b then "True" else "False"
  | VInt z => NilZero.string_of_int (Z.to_int z)
  | VFloat r => r
  | VStr s => s
  | _ => repr_container v
  end.

(** *** fetch_github_readme *)

Definition fetch_github_readme (version : value) : M (option string) :=
  if negb (has_requests w) then mret None
  else
    let url :=
      "https://raw.githubusercontent.com/kata-containers/kata-containers/"
      +:+ str_value version
      +:+ "/tools/packaging/kata-deploy/helm-chart/README.md" in
    _ ← emit (EvGet url);
    match http_get w url with
    | inr (status_code, text) =>
        if (status_code =? 200)%nat then mret (Some text) else mret None
    | inl e =>
        _ ← print ("   Warning: Could not fetch GitHub README: " +:+ e);
        mret None
    end.

(** *** parse_kata_deploy_values *)

(** [rf'\|\s*`?{re.escape(option.path)}`?\s*\|([^|]+)\|'] *)
Definition description_pattern (p : string) : Re.regex :=
  [Re.One (Re.CChar "|"); Re.Star Re.CSpace; Re.Opt (Re.CChar "`")]
  ++ Re.escape p
  ++ [Re.Opt (Re.CChar "`"); Re.Star Re.CSpace; Re.One (Re.CChar "|");
      Re.Group (Re.CNot "|"); Re.One (Re.CChar "|")].

Definition resolve_description (readme_content : string) (r : nat) : M unit :=
  o ← deref r;
  match Re.search (description_pattern (path o)) readme_content with
  | Some g => update r (set_description (Py.strip g))
  | None => mret tt
  end.

(** The objects [extract_options] appends, allocated in order. *)
Fixpoint alloc_all (os : list ConfigOption) : M (list nat) :=
  match os with
  | [] => mret []
  | o :: os' => r ← alloc o; rs ← alloc_all os'; mret (r :: rs)
  end.

Definition parse_kata_deploy_values (chart_path : string) (kata_version : value)
    (exclude_options : option (list string)) : M (list nat) :=
  let values_file := path_join chart_path "values.yaml" in
  let readme_file := path_join chart_path "README.md" in
  found ← path_exists values_file;
  if negb found then
    _ ← print ("Error: kata-deploy values.yaml not found at " +:+ values_file);
    raise (SystemExit 1)
  else
    text ← read_file values_file;
    values ← load text;
    let exclude_options :=
      match exclude_options with Some l => l | None => [] end in
    options ← alloc_all (extract_options exclude_options values "");
    has_readme ← path_exists readme_file;
    readme_content ←
      (if (has_readme : bool) then
         content ← read_text readme_file; mret (Some content)
       else if truthy_value kata_version then
         _ ← print ("   Fetching configuration reference from GitHub for version "
                    +:+ str_value kata_version +:+ "...");
         fetch_github_readme kata_version
       else mret None : M (option string));
    _ ← match readme_content with
        | Some content =>
            if Py.truthy content then for_each (resolve_description content) options
            else mret tt
        | None => (mret tt : M unit)
        end;
    mret options.

(** *** check_documentation *)

(** The five shapes of a mention of [pattern], in the order they are tried:
    [#.*P], [P\s*:], [`P`], [--set.*P] and [\|\s*P\s*\|]. *)
Definition search_patterns (pattern : string) : list Re.regex :=
  [ Re.One (Re.CChar "#") :: Re.Star Re.CAny :: Re.escape pattern;
    Re.escape pattern ++ [Re.Star Re.CSpace; Re.One (Re.CChar ":")];
    Re.One (Re.CChar "`") :: Re.escape pattern ++ [Re.One (Re.CChar "`")];
    Re.escape "--set" ++ Re.Star Re.CAny :: Re.escape pattern;
    Re.One (Re.CChar "|") :: Re.Star Re.CSpace :: Re.escape pattern
      ++ [Re.Star Re.CSpace; Re.One (Re.CChar "|")] ].

(** The inner loop: does one of the search patterns hit? *)
Fixpoint any_search (rs : list Re.regex) (all_content : string) : bool :=
  match rs with
  | [] => false
  | r :: rs' =>
      match Re.search r all_content with
      | Some _ => true
      | None => any_search rs' all_content
      end
  end.

(** The outer loop with its two [break]s: the pattern that set [found]. *)
Fixpoint first_hit (patterns : list string) (all_content : string) : option string :=
  match patterns with
  | [] => None
  | pattern :: rest =>
      if any_search (search_patterns pattern) all_content then Some pattern
      else first_hit rest all_content
  end.

Definition patterns_of (subchart_alias : string) (o : ConfigOption) : list string :=
  [subchart_alias +:+ "." +:+ path o; path o; name o].

(** [if p.exists(): all_content += open(p).read() + "\n"] for the path
    built from [p]. *)
Definition read_into (all_content p : string) : M string :=
  let file := Pathlib.fspath p in
  found ← path_exists file;
  if (found : bool) then text ← read_text file; mret (all_content +:+ (text +:+ Py.nl))
  else mret all_content.

Fixpoint read_all (all_content : string) (ps : list string) : M string :=
  match ps with
  | [] => mret all_content
  | p :: ps' => c ← read_into all_content p; read_all c ps'
  end.

(** The loop over [options], with the two result lists as they grow. *)
Fixpoint classify (all_content subchart_alias : string) (options : list nat)
    (documented undocumented : list nat) : M (list nat * list nat) :=
  match options with
  | [] => mret (documented, undocumented)
  | r :: rest =>
      o ← deref r;
      match first_hit (patterns_of subchart_alias o) all_content with
      | Some pattern =>
          _ ← update r (add_documented_in pattern);
          classify all_content subchart_alias rest (documented ++ [r]) undocumented
      | None =>
          classify all_content subchart_alias rest documented (undocumented ++ [r])
      end
  end.

Definition check_documentation (options : list nat) (our_values : string)
    (doc_files : list string) (subchart_alias : string) : M (list nat * list nat) :=
  c ← read_into "" our_values;
  all_content ← read_all c doc_files;
  classify all_content subchart_alias options [] [].

(** *** generate_report *)

(** Lines of a template, each closed by a newline. *)
Fixpoint lines (ls : list string) : string :=
  match ls with
  | [] => ""
  | l :: ls' => l +:+ Py.nl +:+ lines ls'
  end.

Fixpoint deref_all (rs : list nat) : M (list ConfigOption) :=
  match rs with
  | [] => mret []
  | r :: rs' => o ← deref r; os ← deref_all rs'; mret (o :: os)
  end.

(** [len(documented) / (len(documented) + len(undocumented)) * 100], as the
    f-string renders it. *)
Definition coverage (documented undocumented : nat) : M string :=
  if (documented + undocumented =? 0)%nat then raise ZeroDivisionError
  else mret (format_pct documented (documented + undocumented)).

Definition nonempty {A : Type} (xs : list A) : bool :=
  match xs with [] => false | _ => true end.

Definition github_row (subchart_alias : string) (o : ConfigOption) : string :=
  let prefixed_path := subchart_alias +:+ "." +:+ path o in
  let default_str :=
    match default o with
    | VNone => "N/A"
    | d => Py.take 50 (str_value d)
    end in
  let desc_str :=
    if Py.truthy (description o) then description o
    else "*(No description available)*" in
  "| `" +:+ prefixed_path +:+ "` | `" +:+ type o +:+ "` | `" +:+ default_str
  +:+ "` | " +:+ desc_str +:+ " |" +:+ Py.nl.

Definition github_item (subchart_alias : string) (o : ConfigOption) : string :=
  "- ✓ `" +:+ subchart_alias +:+ "." +:+ path o +:+ "` (" +:+ type o +:+ ")" +:+ Py.nl.

Definition text_item (o : ConfigOption) : string :=
  "  - " +:+ path o +:+ " (" +:+ type o +:+ ")" +:+ Py.nl
  +:+ match default o with
      | VNone => ""
      | d => "    Default: " +:+ str_value d +:+ Py.nl
      end
  +:+ (if Py.truthy (description o)
       then "    Description: " +:+ description o +:+ Py.nl else "").

Fixpoint concat_map {A : Type} (f : A -> string) (xs : list A) : string :=
  match xs with
  | [] => ""
  | x :: xs' => f x +:+ concat_map f xs'
  end.

Definition github_summary (kata_version mtime : string) (d u : nat) (cov : string) : string :=
  lines [
    "# 📚 Kata-Deploy Documentation Validation Report";
    "";
    "**Kata-Deploy Version:** `" +:+ kata_version +:+ "`  ";
    "**Validation Date:** " +:+ mtime;
    "";
    "## Summary";
    "";
    "- ✅ **Documented Options:** " +:+ Py.str_nat d;
    "- ❌ **Undocumented Options:** " +:+ Py.str_nat u;
    "- 📊 **Coverage:** " +:+ cov +:+ "%";
    "" ].

Definition github_missing_head : string :=
  lines [
    "---";
    "";
    "## ⚠️ Missing Documentation";
    "";
    "The following configuration options from kata-deploy are **not documented** in our chart:";
    "";
    "| Option Path (in our chart) | Type | Default Value | Description |";
    "|----------------------------|------|---------------|-------------|" ].

Definition github_action_required (subchart_alias : string) : string :=
  lines [
    "";
    "### 📝 Action Required";
    "";
    "Please add documentation for these options in one or more of the following places:";
    "";
    "1. **values.yaml** - Add comments above the relevant configuration sections";
    "2. **QUICKSTART.md** - Add to the " +:+ Py.dq +:+ "Common Customizations" +:+ Py.dq
      +:+ " or " +:+ Py.dq +:+ "Advanced Configuration" +:+ Py.dq +:+ " sections";
    "3. **README.md** - Add to the configuration reference table";
    "";
    "**Important:** In our chart, kata-deploy options are under the `"
      +:+ subchart_alias +:+ "` subchart alias.";
    "Users need to use the prefixed path shown in the table above.";
    "";
    "#### Example Documentation Format";
    "";
    "For `values.yaml`:";
    "```yaml";
    "# Description of the option and its purpose";
    "# Valid values: value1 | value2 | value3";
    "# Default: value1";
    subchart_alias +:+ ":";
    "  optionName: value";
    "```";
    "";
    "For markdown docs:";
    "```markdown";
    "| Parameter | Description | Default |";
    "|-----------|-------------|---------|";
    "| `" +:+ subchart_alias +:+ ".optionName` | Description of what it does | `value` |";
    "```";
    "";
    "For `--set` examples:";
    "```bash";
    "helm install coco oci://... \";
    "  --set " +:+ subchart_alias +:+ ".optionName=value";
    "```";
    "" ].

Definition github_all_documented : string :=
  lines [
    "---";
    "";
    "## ✅ All Options Documented";
    "";
    "Great! All configuration options from kata-deploy are documented in our chart.";
    "" ].

Definition github_documented_head (d : nat) : string :=
  lines [
    "---";
    "";
    "## ✅ Documented Options (" +:+ Py.str_nat d +:+ ")";
    "";
    "<details>";
    "<summary>Click to expand list of documented options</summary>";
    "" ].

Definition generate_report (kata_version : value) (documented undocumented : list nat)
    (output_format subchart_alias : string) : M string :=
  if String.eqb output_format "github" then
    mtime ← stat_tmp;
    cov ← coverage (length documented) (length undocumented);
    let report :=
      github_summary (str_value kata_version) mtime
        (length documented) (length undocumented) cov in
    report ←
      (if nonempty undocumented then
         os ← deref_all undocumented;
         mret (report +:+ github_missing_head
               +:+ concat_map (github_row subchart_alias) (Py.sorted path os)
               +:+ github_action_required subchart_alias)
       else mret (report +:+ github_all_documented) : M string);
    if nonempty documented then
      os ← deref_all documented;
      mret (report +:+ github_documented_head (length documented)
            +:+ concat_map (github_item subchart_alias) (Py.sorted path os)
            +:+ Py.nl +:+ "</details>" +:+ Py.nl)
    else mret report
  else
    let report :=
      "Kata-Deploy Documentation Validation Report" +:+ Py.nl
      +:+ Py.repeat "=" 60 +:+ Py.nl +:+ Py.nl
      +:+ "Kata-Deploy Version: " +:+ str_value kata_version +:+ Py.nl
      +:+ "Documented Options: " +:+ Py.str_nat (length documented) +:+ Py.nl
      +:+ "Undocumented Options: " +:+ Py.str_nat (length undocumented) +:+ Py.nl in
    cov ← coverage (length documented) (length undocumented);
    let report := report +:+ "Coverage: " +:+ cov +:+ "%" +:+ Py.nl +:+ Py.nl in
    if nonempty undocumented then
      os ← deref_all undocumented;
      mret (report +:+ "Missing Documentation:" +:+ Py.nl
            +:+ Py.repeat "-" 60 +:+ Py.nl
            +:+ concat_map text_item (Py.sorted path os))
    else mret report.

(** *** main *)

(** The parsed command line; the three paths are carried by the texts
    given on it. *)
Record args := mkArgs {
  kata_deploy_chart : string;
  our_values : string;
  our_docs : list string;
  output_format : string;
  fail_on_missing : bool;
}.

(** The loop over the manifest's dependencies, up to its [break]. *)
Fixpoint find_version (deps : list value) : M value :=
  match deps with
  | [] => mret (VStr "unknown")
  | dep :: rest =>
      n ← py_get dep "name" VNone;
      if eq_str n "kata-deploy" then py_get dep "version" (VStr "unknown")
      else find_version rest
  end.

(** The version label read from [Chart.yaml]. *)
Definition resolve_version : M value :=
  found ← path_exists "Chart.yaml";
  if (found : bool) then
    text ← read_file "Chart.yaml";
    chart_data ← load text;
    deps ← py_get chart_data "dependencies" (VList []);
    items ← py_iter deps;
    find_version items
  else mret (VStr "unknown").

Definition exclude_options : list string := ["env.hostOS"].

Definition subchart_alias : string := "kata-as-coco-runtime".

Definition report_file : string := "/tmp/validation-report.md".

(** The closing block of [main], under [# Exit with appropriate code].
    Falling off its end lets the interpreter exit with status 0. *)
Definition exit_with_code (a : args) (undocumented : list nat) : M unit :=
  if nonempty undocumented then
    _ ← print (Py.nl +:+ "❌ Validation FAILED: "
               +:+ Py.str_nat (length undocumented) +:+ " options are not documented");
    if fail_on_missing a || String.eqb (output_format a) "github"
    then raise (SystemExit 1)
    else mret tt
  else
    _ ← print (Py.nl +:+ "✅ Validation PASSED: All options are documented");
    raise (SystemExit 0).

(** [main] from the first progress line to the saved report, once the
    version is known; what is left for the closing block is [undocumented]. *)
Definition report_stages (a : args) (kata_version : value) : M (list nat) :=
  _ ← print ("🔍 Validating documentation against kata-deploy "
             +:+ str_value kata_version +:+ "...");
  _ ← print ("📖 Parsing kata-deploy chart from "
             +:+ Pathlib.fspath (kata_deploy_chart a) +:+ "...");
  _ ← print ("   Excluding options only relevant for CI: "
             +:+ Py.join ", " exclude_options);
  options ← parse_kata_deploy_values (kata_deploy_chart a) kata_version
              (Some exclude_options);
  _ ← print ("   Found " +:+ Py.str_nat (length options) +:+ " configuration options");
  _ ← print ("📝 Checking our documentation (with subchart alias: "
             +:+ subchart_alias +:+ ")...");
  '(documented, undocumented) ←
    check_documentation options (our_values a) (our_docs a) subchart_alias;
  report ← generate_report kata_version documented undocumented
             (output_format a) subchart_alias;
  _ ← print (Py.nl +:+ report);
  _ ← write_tmp report_file report;
  _ ← print (Py.nl +:+ "💾 Report saved to " +:+ report_file);
  mret undocumented.

Definition stages (a : args) (kata_version : value) : M unit :=
  undocumented ← report_stages a kata_version;
  exit_with_code a undocumented.

Definition main (a : args) : M unit :=
  kata_version ← resolve_version;
  stages a kata_version.

End Script.

(** Running from a fresh process: an empty heap and an empty trace. *)
Definition start : state := mkState [] [].

(** ** The vocabulary of the properties *)

(** *** Texts *)

Fixpoint all_chars (P : ascii -> bool) (s : string) : bool :=
  match s with
  | EmptyString => true
  | String c s' => P c && all_chars P s'
  end.

Fixpoint casefold (s : string) : string :=
  match s with
  | EmptyString => EmptyString
  | String c s' => String (Py.lower c) (casefold s')
  end.

(** Equal when case is ignored. *)
Definition same_text (a b : string) : Prop := casefold a = casefold b.

(** No line break inside. *)
Definition on_one_line (m : string) : Prop :=
  all_chars (fun c => negb (Ascii.eqb c (Py.chr 10))) m = true.

(** White space only, possibly none. *)
Definition blank (m : string) : Prop := all_chars Py.isspace m = true.

(** 7-bit text: every character is below 128. *)
Definition seven_bit (s : string) : Prop :=
  all_chars (fun c => (nat_of_ascii c <? 128)%nat) s = true.

(** *** The language of a pattern *)

Definition node_lang (n : Re.node) (t : string) : Prop :=
  match n with
  | Re.One x => exists c, t = String c "" /\ Re.accepts x c = true
  | Re.Opt x => t = "" \/ exists c, t = String c "" /\ Re.accepts x c = true
  | Re.Star x => all_chars (Re.accepts x) t = true
  | Re.Group x => t <> "" /\ all_chars (Re.accepts x) t = true
  end.

Fixpoint lang (r : Re.regex) (t : string) : Prop :=
  match r with
  | [] => t = ""
  | n :: r' => exists t1 t2, t = t1 +:+ t2 /\ node_lang n t1 /\ lang r' t2
  end.

(** [t] occurs in [s] between [a] and [b]. *)
Definition occurs (r : Re.regex) (s : string) : Prop :=
  exists a t b, s = a +:+ t +:+ b /\ lang r t.

(** *** The five forms of a mention *)

Inductive mention (p corpus : string) : Prop :=
| in_comment a m t b :
    corpus = a +:+ "#" +:+ m +:+ t +:+ b ->
    on_one_line m -> same_text p t -> mention p corpus
| as_key a t m b :
    corpus = a +:+ t +:+ m +:+ ":" +:+ b ->
    blank m -> same_text p t -> mention p corpus
| in_backticks a t b :
    corpus = a +:+ "`" +:+ t +:+ "`" +:+ b ->
    same_text p t -> mention p corpus
| after_set a f m t b :
    corpus = a +:+ f +:+ m +:+ t +:+ b ->
    same_text "--set" f -> on_one_line m -> same_text p t -> mention p corpus
| in_table a m1 t m2 b :
    corpus = a +:+ "|" +:+ m1 +:+ t +:+ m2 +:+ "|" +:+ b ->
    blank m1 -> blank m2 -> same_text p t -> mention p corpus.

(** The candidate that decides for an option: the prefixed path if it is
    mentioned, else the bare path if it is, else the bare name if it is. *)
Definition deciding (alias : string) (o : ConfigOption) (corpus c : string) : Prop :=
  let prefixed := alias +:+ "." +:+ path o in
  (c = prefixed /\ mention prefixed corpus)
  \/ (c = path o /\ ~ mention prefixed corpus /\ mention (path o) corpus)
  \/ (c = name o /\ ~ mention prefixed corpus /\ ~ mention (path o) corpus
      /\ mention (name o) corpus).

(** The corpus [check_documentation] assembles. *)
Definition with_file (w : world) (all_content p : string) : string :=
  match files w (Pathlib.fspath p) with
  | Some text => all_content +:+ (Py.universal_newlines text +:+ Py.nl)
  | None => all_content
  end.

Definition corpus (w : world) (our_values : string) (doc_files : list string) : string :=
  fold_left (with_file w) doc_files (with_file w "" our_values).

(** *** Classification of references *)

(** The object at [r] has a candidate that hits. *)
Definition hit (all_content alias : string) (h : list ConfigOption) (r : nat) : Prop :=
  is_Some (o ← h !! r; first_hit (patterns_of alias o) all_content).

(** What the check leaves of an object it visits. *)
Definition mark (all_content alias : string) (o : ConfigOption) : ConfigOption :=
  match first_hit (patterns_of alias o) all_content with
  | Some c => add_documented_in c o
  | None => o
  end.

(** Every reference of the list names an object of the heap. *)
Definition valid_refs (s : state) (rs : list nat) : Prop :=
  Forall (fun r => r < length (heap s)) rs.

(** *** Positions in a configuration tree *)

(** A key the extractor neither skips as internal nor finds excluded. *)
Definition kept (exclude : list string) (key cur : string) : Prop :=
  Py.startswith key "_" = false /\ cur ∉ exclude.

(** [visited exclude data parent key p v]: the entry under [key], of dotted
    path [p] and value [v], lies in [data] (itself at [parent]) and every
    key from [data] down to it is kept. *)
Inductive visited (exclude : list string) :
    value -> string -> string -> string -> value -> Prop :=
| visited_entry items parent key v :
    (key, v) ∈ items ->
    kept exclude key (current_path parent key) ->
    visited exclude (VDict items) parent key (current_path parent key) v
| visited_under items parent k sub key p v :
    (k, VDict sub) ∈ items ->
    kept exclude k (current_path parent k) ->
    visited exclude (VDict sub) (current_path parent k) key p v ->
    visited exclude (VDict items) parent key p v.

(** *** The manifest *)

(** The entries of the manifest's dependency list; none when the document
    has no such list. *)
Definition dependency_entries (chart_data : value) : list value :=
  match chart_data with
  | VDict items =>
      match dict_get items "dependencies" (VList []) with
      | VList deps => deps
      | _ => []
      end
  | _ => []
  end.

(** An entry that names kata-deploy. *)
Definition names_kata_deploy (dep : value) : Prop :=
  exists items, dep = VDict items /\ dict_get items "name" VNone = VStr "kata-deploy".

(** The manifest is missing, or it parses and its dependency list has no
    entry for kata-deploy. *)
Definition no_pinned_version (safe_load : string -> option value) (w : world) : Prop :=
  files w "Chart.yaml" = None
  \/ exists text chart_data,
       files w "Chart.yaml" = Some text /\ safe_load text = Some chart_data
       /\ forall dep, dep ∈ dependency_entries chart_data -> ~ names_kata_deploy dep.

(** A manifest of the expected shape: a mapping whose [dependencies], when
    present, is a list of mappings. *)
Definition well_formed_manifest (chart_data : value) : Prop :=
  exists items deps,
    chart_data = VDict items
    /\ dict_get items "dependencies" (VList []) = VList deps
    /\ forall dep, dep ∈ deps -> is_dict dep = true.

(** What resolving the version does to its surroundings. *)
Definition manifest_events (w : world) : list event :=
  EvExists "Chart.yaml"
  :: match files w "Chart.yaml" with Some _ => [EvRead "Chart.yaml"] | None => [] end.

(** What [stages] does when the upstream values file is missing. *)
Definition missing_values_events (str_version chart_path : string) : list event :=
  [ EvPrint ("🔍 Validating documentation against kata-deploy " +:+ str_version +:+ "...");
    EvPrint ("📖 Parsing kata-deploy chart from " +:+ Pathlib.fspath chart_path +:+ "...");
    EvPrint "   Excluding options only relevant for CI: env.hostOS";
    EvExists (path_join chart_path "values.yaml");
    EvPrint ("Error: kata-deploy values.yaml not found at "
             +:+ path_join chart_path "values.yaml") ].


(** The status the closing block of [main] asks for. *)
Definition status_policy (a : args) (undocumented : list nat) : nat :=
  if nonempty undocumented
     && (fail_on_missing a || String.eqb (output_format a) "github")
  then 1 else 0.

(** An event that is not the writing of a file. *)
Definition writes_nothing (ev : event) : Prop :=
  match ev with EvWrite _ _ => False | _ => True end.

(** The claim that resolving the version cannot fail, in one world. *)
Definition version_never_fatal (safe_load : string -> option value) (w : world)
    (s : state) : Prop :=
  no_pinned_version safe_load w ->
  exists s', resolve_version safe_load w s = (inr (VStr "unknown"), s').

(** *** Plain keys *)

(** A key that is not empty and holds no dot. *)
Definition plain_key (k : string) : Prop :=
  k <> "" /\ all_chars (fun c => negb (Ascii.eqb c ".")) k = true.

(** A tree in which every mapping has distinct, plain keys. *)
Fixpoint plain_tree (v : value) : Prop :=
  match v with
  | VDict items =>
      NoDup (map fst items)
      /\ (fix all (items : list (string * value)) : Prop :=
            match items with
            | [] => True
            | (k, v') :: rest => plain_key k /\ plain_tree v' /\ all rest
            end) items
  | _ => True
  end.

(** Nothing, or a dot and more. *)
Definition dot_tail (t : string) : Prop := t = "" \/ exists t', t = "." +:+ t'.

(** [p] is [cur] or continues it past a dot. *)
Definition under (cur p : string) : Prop := exists t, p = cur +:+ t /\ dot_tail t.

(** What [current_path] puts before the key. *)
Definition path_prefix (parent_path : string) : string :=
  if Py.truthy parent_path then parent_path +:+ "." else "".

(** *** Objects and their fields *)



(** *** Texts within texts, events of the file system *)


(** The address [fetch_github_readme] asks for. *)
Definition github_readme_url (version : string) : string :=
  "https://raw.githubusercontent.com/kata-containers/kata-containers/"
  +:+ version +:+ "/tools/packaging/kata-deploy/helm-chart/README.md".

(** Looking for each file in turn and reading the ones that exist. *)
Definition probe_events (w : world) (ps : list string) : list event :=
  flat_map (fun p => EvExists (Pathlib.fspath p) ::
              match files w (Pathlib.fspath p) with
              | Some _ => [EvRead (Pathlib.fspath p)]
              | None => []
              end) ps.

(** A computation that writes no file, whatever it returns. *)
Definition quiet {A : Type} (m : M A) : Prop :=
  forall s, exists l, trace (m s).2 = trace s ++ l /\ Forall writes_nothing l.

(** A set of characters that does not tell a letter from its lower case. *)
Definition case_blind (x : Re.cset) : Prop :=
  forall c, Re.accepts x (Py.lower c) = Re.accepts x c.

Definition case_blind_node (n : Re.node) : Prop :=
  match n with
  | Re.One x | Re.Star x | Re.Opt x | Re.Group x => case_blind x
  end.

(** Ascending order of paths. *)
Definition path_le (o o' : ConfigOption) : Prop := String.leb (path o) (path o') = true.

(** *** The report as a text of the objects *)

(** The [github] report of the objects behind the two lists. *)
Definition render_github (repr_container : value -> string)
    (format_pct : nat -> nat -> string) (kata_version : value) (mtime : string)
    (ds us : list ConfigOption) (alias : string) : string :=
  let report :=
    github_summary (str_value repr_container kata_version) mtime (length ds) (length us)
      (format_pct (length ds) (length ds + length us)) in
  let report :=
    if nonempty us then
      report +:+ github_missing_head
      +:+ concat_map (github_row repr_container alias) (Py.sorted path us)
      +:+ github_action_required alias
    else report +:+ github_all_documented in
  if nonempty ds then
    report +:+ github_documented_head (length ds)
    +:+ concat_map (github_item alias) (Py.sorted path ds)
    +:+ Py.nl +:+ "</details>" +:+ Py.nl
  else report.

(** The plain report of the objects behind the two lists. *)
Definition render_text (repr_container : value -> string)
    (format_pct : nat -> nat -> string) (kata_version : value)
    (ds us : list ConfigOption) : string :=
  let report :=
    "Kata-Deploy Documentation Validation Report" +:+ Py.nl
    +:+ Py.repeat "=" 60 +:+ Py.nl +:+ Py.nl
    +:+ "Kata-Deploy Version: " +:+ str_value repr_container kata_version +:+ Py.nl
    +:+ "Documented Options: " +:+ Py.str_nat (length ds) +:+ Py.nl
    +:+ "Undocumented Options: " +:+ Py.str_nat (length us) +:+ Py.nl in
  let report :=
    report +:+ "Coverage: " +:+ format_pct (length ds) (length ds + length us)
    +:+ "%" +:+ Py.nl +:+ Py.nl in
  if nonempty us then
    report +:+ "Missing Documentation:" +:+ Py.nl
    +:+ Py.repeat "-" 60 +:+ Py.nl
    +:+ concat_map (text_item repr_container) (Py.sorted path us)
  else report.

(** The objects behind a list of references. *)
Definition objects (s : state) (rs : list nat) (os : list ConfigOption) : Prop :=
  Forall2 (fun r o => heap s !! r = Some o) rs os.

(** *** The text a pattern captures *)

(** [t] belongs to the language of the pattern and [g] is the part of it
    that the group has read. *)
Fixpoint captures (r : Re.regex) (t g : string) : Prop :=
  match r with
  | [] => t = "" /\ g = ""
  | Re.Group x :: r' =>
      exists t2, t = g +:+ t2 /\ node_lang (Re.Group x) g /\ lang r' t2
  | n :: r' => exists t1 t2, t = t1 +:+ t2 /\ node_lang n t1 /\ captures r' t2 g
  end.

(** No [|] inside. *)
Definition no_pipe (g : string) : Prop :=
  all_chars (fun c => negb (Ascii.eqb "|" c)) g = true.

(** A backtick or nothing. *)
Definition tick (q : string) : Prop := q = "" \/ q = "`".

(** [d] is, stripped, the cell that follows a cell holding [p] (bare or in
    backticks, case ignored) in a table row of [readme]. *)
Definition described_in (readme p d : string) : Prop :=
  exists a m1 q1 t q2 m2 g b,
    readme = a +:+ "|" +:+ m1 +:+ q1 +:+ t +:+ q2 +:+ m2 +:+ "|" +:+ g +:+ "|" +:+ b
    /\ blank m1 /\ tick q1 /\ same_text p t /\ tick q2 /\ blank m2
    /\ g <> "" /\ no_pipe g /\ d = Py.strip g.

(** ** Scenarios *)

Module Scenario.

(** The tree [{env: {debug: false, hostOS: "ci"}}]. *)
Definition tree : value :=
  VDict [("env", VDict [("debug", VBool false); ("hostOS", VStr "ci")])].

(** A manifest that pins kata-deploy. *)
Definition pinned : value :=
  VDict [("name", VStr "confidential-containers");
         ("dependencies",
          VList [VDict [("name", VStr "kata-deploy"); ("version", VStr "3.21.0")]])].

(** A manifest without dependencies. *)
Definition unpinned : value := VDict [("name", VStr "confidential-containers")].

(** A loader for the documents of the scenarios, each named by its text:
    an empty file loads as [None], as PyYAML does. *)
Definition safe_load (text : string) : option value :=
  if String.eqb text "" then Some VNone
  else if String.eqb text "{}" then Some (VDict [])
  else if String.eqb text "tree" then Some tree
  else if String.eqb text "pinned" then Some pinned
  else if String.eqb text "unpinned" then Some unpinned
  else None.

Definition repr_container (v : value) : string := "[...]".

(** Exact whenever [t] divides [100 * d], as in the scenarios. *)
Definition format_pct (d t : nat) : string := Py.str_nat (100 * d / t) +:+ ".0".

Fixpoint lookup_file (fs : list (string * string)) (p : string) : option string :=
  match fs with
  | [] => None
  | (q, text) :: fs' => if String.eqb q p then Some text else lookup_file fs' p
  end.

(** A machine with the given files, a [/tmp], and no [requests] module. *)
Definition machine (fs : list (string * string)) : world :=
  mkWorld (lookup_file fs) (Some "1730685420.0") false (fun _ => inl "offline").

(** The command line [--kata-deploy-chart upstream --our-values values.yaml
    --our-docs README.md], in text mode. *)
Definition cli : args := mkArgs "upstream" "values.yaml" ["README.md"] "text" false.

(** The upstream chart ships an empty mapping. *)
Definition no_options : world := machine [("upstream/values.yaml", "{}")].

(** The upstream chart ships an empty values file. *)
Definition empty_values : world := machine [("upstream/values.yaml", "")].

(** The upstream chart has no values file. *)
Definition no_values : world := machine [("Chart.yaml", "pinned")].

(** The manifest is an empty file. *)
Definition empty_manifest : world :=
  machine [("Chart.yaml", ""); ("upstream/values.yaml", "tree")].

(** The manifest is an empty file and the upstream chart has no values
    file. *)
Definition only_empty_manifest : world := machine [("Chart.yaml", "")].

(** The manifest has no dependency on kata-deploy. *)
Definition unpinned_manifest : world :=
  machine [("Chart.yaml", "unpinned"); ("upstream/values.yaml", "tree")].

(** The downstream values file mentions the option in a comment. *)
Definition commented : world :=
  machine [("upstream/values.yaml", "tree");
           ("values.yaml", "# kata-as-coco-runtime.env.debug enables verbose logs")].

(** A heap holding the option of [tree], as extraction leaves it. *)
Definition one_option : state :=
  mkState [new_option "debug" "env.debug" "bool" (VBool false)] [].

(** A tree with two mappings side by side and one below another. *)
Definition nested : value :=
  VDict [("image", VDict [("reference", VStr "quay.io/kata"); ("tag", VStr "latest")]);
         ("env", VDict [("debug", VBool false);
                        ("shims", VDict [("default", VStr "qemu")])]);
         ("imagePullPolicy", VStr "Always")].

(** The upstream chart ships its own reference table. *)
Definition with_readme : world :=
  machine [("Chart.yaml", "pinned");
           ("upstream/values.yaml", "tree");
           ("upstream/README.md", "| `env.debug` | Enable debug logging | `false` |");
           ("values.yaml", "# kata-as-coco-runtime.env.debug enables verbose logs")].

(** The downstream values file documents nothing. *)
Definition undocumented_world : world :=
  machine [("Chart.yaml", "pinned"); ("upstream/values.yaml", "tree");
           ("values.yaml", "replicas: 1")].

End Scenario.

(** * Properties *)

(** ** Text *)

Lemma append_cons (c : ascii) (s t : string) : String c s +:+ t = String c (s +:+ t).
Proof. reflexivity. Qed.

Lemma append_empty_r (s : string) : s +:+ "" = s.
Proof. induction s as [|c s IH]; [done|]. by rewrite append_cons, IH. Qed.

Lemma append_assoc (a b c : string) : (a +:+ b) +:+ c = a +:+ b +:+ c.
Proof. induction a as [|x a IH]; [done|]. by rewrite !append_cons, IH. Qed.

Lemma all_chars_app (P : ascii -> bool) (a b : string) :
  all_chars P (a +:+ b) = all_chars P a && all_chars P b.
Proof.
  induction a as [|x a IH]; [done|].
  rewrite append_cons. simpl. by rewrite IH, andb_assoc.
Qed.

Lemma casefold_app (a b : string) : casefold (a +:+ b) = casefold a +:+ casefold b.
Proof. induction a as [|x a IH]; [done|]. rewrite !append_cons. simpl. by rewrite IH. Qed.

Lemma same_text_refl (a : string) : same_text a a.
Proof. reflexivity. Qed.

Lemma contains_spec (xs : list string) (x : string) :
  Py.contains xs x = true <-> x ∈ xs.
Proof.
  unfold Py.contains. rewrite existsb_exists. split.
  - intros (y & Hy & Heq). apply String.eqb_eq in Heq. subst. by apply list_elem_of_In.
  - intros Hin. exists x. split; [by apply list_elem_of_In | apply String.eqb_refl].
Qed.

(** A pattern character without case matches itself only. *)
Lemma accepts_marker (m c : ascii) :
  m = "#"%char \/ m = ":"%char \/ m = "`"%char \/ m = "|"%char ->
  Re.accepts (Re.CChar m) c = true <-> c = m.
Proof.
  intros Hm. split.
  - destruct Hm as [-> | [-> | [-> | ->]]];
      destruct c as [[] [] [] [] [] [] [] []]; vm_compute; congruence.
  - intros ->. destruct Hm as [-> | [-> | [-> | ->]]]; reflexivity.
Qed.

(** ** The matcher against the language of a pattern *)

Lemma match_here_star (x : Re.cset) (r : Re.regex) (s : string) :
  Re.match_here (Re.Star x :: r) s =
  match s with
  | String c s' =>
      if Re.accepts x c then
        match Re.match_here (Re.Star x :: r) s' with
        | Some m => Some m
        | None => Re.match_here r s
        end
      else Re.match_here r s
  | EmptyString => Re.match_here r s
  end.
Proof. by destruct s. Qed.

Lemma match_here_group (x : Re.cset) (r : Re.regex) (s : string) :
  Re.match_here (Re.Group x :: r) s =
  match s with
  | String c s' =>
      if Re.accepts x c then
        match Re.match_here (Re.Group x :: r) s' with
        | Some (g, rest) => Some (String c g, rest)
        | None =>
            match Re.match_here r s' with
            | Some (_, rest) => Some (String c EmptyString, rest)
            | None => None
            end
        end
      else None
  | EmptyString => None
  end.
Proof. by destruct s. Qed.

Lemma lang_cons (n : Re.node) (r : Re.regex) (t1 t2 : string) :
  node_lang n t1 -> lang r t2 -> lang (n :: r) (t1 +:+ t2).
Proof. intros H1 H2. by exists t1, t2. Qed.

Lemma lang_star_grow (x : Re.cset) (r : Re.regex) (c : ascii) (t : string) :
  Re.accepts x c = true -> lang (Re.Star x :: r) t -> lang (Re.Star x :: r) (String c t).
Proof.
  intros Hc (t1 & t2 & -> & H1 & H2).
  exists (String c t1), t2. split; [done|]. split; [|done].
  simpl in *. by rewrite Hc, H1.
Qed.

Lemma lang_star_skip (x : Re.cset) (r : Re.regex) (t : string) :
  lang r t -> lang (Re.Star x :: r) t.
Proof. intros H. by exists "", t. Qed.

Lemma lang_group_grow (x : Re.cset) (r : Re.regex) (c : ascii) (t : string) :
  Re.accepts x c = true -> lang (Re.Group x :: r) t -> lang (Re.Group x :: r) (String c t).
Proof.
  intros Hc (t1 & t2 & -> & [_ H1] & H2).
  exists (String c t1), t2. split; [done|]. split; [|done].
  split; [done|]. simpl. by rewrite Hc, H1.
Qed.

(** Whatever the matcher reads belongs to the language of the pattern. *)
Lemma match_here_sound (r : Re.regex) :
  forall s g rest, Re.match_here r s = Some (g, rest) ->
  exists t, s = t +:+ rest /\ lang r t.
Proof.
  induction r as [|n r IH]; intros s g rest Hm.
  - simpl in Hm. injection Hm as _ ->. by exists "".
  - destruct n as [x|x|x|x].
    + destruct s as [|c s]; [done|]. simpl in Hm.
      destruct (Re.accepts x c) eqn:Hc; [|done].
      destruct (IH _ _ _ Hm) as (t & -> & Ht).
      exists (String c t). split; [done|].
      apply (lang_cons (Re.One x) r (String c "") t); [|done]. by exists c.
    + revert g rest Hm. induction s as [|c s IHs]; intros g rest Hm.
      * rewrite match_here_star in Hm.
        destruct (IH _ _ _ Hm) as (t & -> & Ht).
        exists t. split; [done|]. by apply lang_star_skip.
      * rewrite match_here_star in Hm.
        destruct (Re.accepts x c) eqn:Hc.
        -- destruct (Re.match_here (Re.Star x :: r) s) as [[g' rest']|] eqn:Hs.
           ++ injection Hm as -> ->.
              destruct (IHs _ _ eq_refl) as (t & -> & Ht).
              exists (String c t). split; [done|]. by apply lang_star_grow.
           ++ destruct (IH _ _ _ Hm) as (t & Heq & Ht).
              exists t. split; [done|]. by apply lang_star_skip.
        -- destruct (IH _ _ _ Hm) as (t & Heq & Ht).
           exists t. split; [done|]. by apply lang_star_skip.
    + destruct s as [|c s]; simpl in Hm.
      * destruct (IH _ _ _ Hm) as (t & Heq & Ht).
        exists t. split; [done|]. exists "", t. split; [done|]. split; [by left | done].
      * assert (Hskip : forall g rest, Re.match_here r (String c s) = Some (g, rest) ->
                  exists t, String c s = t +:+ rest /\ lang (Re.Opt x :: r) t).
        { intros g' rest' H'. destruct (IH _ _ _ H') as (t & Heq & Ht).
          exists t. split; [done|]. exists "", t. split; [done|]. split; [by left | done]. }
        destruct (Re.accepts x c) eqn:Hc; [|by eapply Hskip].
        destruct (Re.match_here r s) as [[g' rest']|] eqn:Hs; [|by eapply Hskip].
        injection Hm as -> ->.
        destruct (IH _ _ _ Hs) as (t & -> & Ht).
        exists (String c t). split; [done|].
        apply (lang_cons (Re.Opt x) r (String c "") t); [|done]. right. by exists c.
    + revert g rest Hm. induction s as [|c s IHs]; intros g rest Hm.
      * by rewrite match_here_group in Hm.
      * rewrite match_here_group in Hm.
        destruct (Re.accepts x c) eqn:Hc; [|done].
        destruct (Re.match_here (Re.Group x :: r) s) as [[g' rest']|] eqn:Hs.
        -- injection Hm as _ ->.
           destruct (IHs _ _ eq_refl) as (t & -> & Ht).
           exists (String c t). split; [done|]. by apply lang_group_grow.
        -- destruct (Re.match_here r s) as [[g' rest']|] eqn:Hr; [|done].
           injection Hm as _ ->.
           destruct (IH _ _ _ Hr) as (t & -> & Ht).
           exists (String c t). split; [done|].
           apply (lang_cons (Re.Group x) r (String c "") t); [|done].
           split; [done|]. simpl. by rewrite Hc.
Qed.

Lemma match_here_star_weaken (x : Re.cset) (r : Re.regex) (s : string) :
  is_Some (Re.match_here r s) -> is_Some (Re.match_here (Re.Star x :: r) s).
Proof.
  intros H. rewrite match_here_star. destruct s as [|c s]; [done|].
  destruct (Re.accepts x c); [|done].
  by destruct (Re.match_here (Re.Star x :: r) s).
Qed.

(** Every text of the language is read when it stands first. *)
Lemma match_here_complete (r : Re.regex) :
  forall t rest, lang r t -> is_Some (Re.match_here r (t +:+ rest)).
Proof.
  induction r as [|n r IH]; intros t rest Ht.
  - simpl in Ht. subst. simpl. eauto.
  - destruct Ht as (t1 & t2 & -> & H1 & H2). rewrite append_assoc.
    specialize (IH t2 rest H2).
    destruct n as [x|x|x|x]; simpl in H1.
    + destruct H1 as (c & -> & Hc). rewrite append_cons. simpl. by rewrite Hc.
    + induction t1 as [|c t1 IHt].
      * by apply match_here_star_weaken.
      * simpl in H1. apply andb_true_iff in H1 as [Hc H1].
        rewrite append_cons, match_here_star, Hc.
        destruct (IHt H1) as [m ->]. eauto.
    + destruct H1 as [-> | (c & -> & Hc)].
      * change ("" +:+ t2 +:+ rest) with (t2 +:+ rest).
        destruct (t2 +:+ rest) as [|c s] eqn:Heq; simpl; [done|].
        destruct (Re.accepts x c); [|done].
        by destruct (Re.match_here r s).
      * rewrite append_cons. simpl. rewrite Hc.
        change ("" +:+ t2 +:+ rest) with (t2 +:+ rest).
        destruct IH as [m ->]. eauto.
    + destruct H1 as [Hne H1]. induction t1 as [|c t1 IHt]; [done|].
      simpl in H1. apply andb_true_iff in H1 as [Hc H1].
      rewrite append_cons, match_here_group, Hc.
      destruct t1 as [|c' t1].
      * change ("" +:+ t2 +:+ rest) with (t2 +:+ rest).
        destruct (Re.match_here (Re.Group x :: r) (t2 +:+ rest)) as [[g' rest']|]; [eauto|].
        destruct IH as [[g' rest'] ->]. eauto.
      * destruct (IHt ltac:(done) H1) as [[g' rest'] ->]. eauto.
Qed.

Lemma search_sound (r : Re.regex) (s : string) :
  is_Some (Re.search r s) -> occurs r s.
Proof.
  induction s as [|c s IH]; simpl.
  - destruct (Re.match_here r "") as [[g rest]|] eqn:Hm; intros [? H]; [|done].
    destruct (match_here_sound _ _ _ _ Hm) as (t & Heq & Ht).
    exists "", t, rest. by split.
  - destruct (Re.match_here r (String c s)) as [[g rest]|] eqn:Hm; intros H.
    + destruct (match_here_sound _ _ _ _ Hm) as (t & Heq & Ht).
      exists "", t, rest. by split.
    + destruct (IH H) as (a & t & b & -> & Ht).
      exists (String c a), t, b. by split.
Qed.

Lemma search_complete (r : Re.regex) (s : string) :
  occurs r s -> is_Some (Re.search r s).
Proof.
  intros (a & t & b & -> & Ht).
  induction a as [|c a IH].
  - change ("" +:+ t +:+ b) with (t +:+ b).
    pose proof (match_here_complete r t b Ht) as [[g rest] Hm].
    destruct (t +:+ b); simpl; rewrite Hm; eauto.
  - rewrite append_cons. simpl.
    destruct (Re.match_here r (String c (a +:+ t +:+ b))) as [[g rest]|]; eauto.
Qed.

(** [re.search] finds a match exactly when some part of the text belongs to
    the language of the pattern. *)
Lemma search_spec (r : Re.regex) (s : string) :
  is_Some (Re.search r s) <-> occurs r s.
Proof. split; [apply search_sound | apply search_complete]. Qed.

Lemma lang_app (r1 r2 : Re.regex) (t : string) :
  lang (r1 ++ r2) t <-> exists t1 t2, t = t1 +:+ t2 /\ lang r1 t1 /\ lang r2 t2.
Proof.
  revert t. induction r1 as [|n r1 IH]; intros t; simpl.
  - split.
    + intros H. by exists "", t.
    + intros (t1 & t2 & -> & -> & H). done.
  - split.
    + intros (u1 & u2 & -> & Hn & H). apply IH in H as (v1 & v2 & -> & Hv1 & Hv2).
      exists (u1 +:+ v1), v2. rewrite append_assoc. split; [done|]. split; [|done].
      by exists u1, v1.
    + intros (t1 & t2 & -> & (u1 & u2 & -> & Hn & H) & H2).
      exists u1, (u2 +:+ t2). rewrite append_assoc. split; [done|]. split; [done|].
      apply IH. by exists u2, t2.
Qed.

(** The escaped pattern stands for its text, whatever the case. *)
Lemma lang_escape (p t : string) : lang (Re.escape p) t <-> same_text p t.
Proof.
  unfold same_text. revert t. induction p as [|c p IH]; intros t; simpl.
  - split; [by intros -> | by destruct t].
  - split.
    + intros (t1 & t2 & -> & (c' & -> & Hc) & H).
      apply IH in H. rewrite append_cons. simpl.
      apply Ascii.eqb_eq in Hc. by rewrite Hc, H.
    + destruct t as [|c' t]; simpl; [done|]. intros [= Hc H].
      exists (String c' ""), t. split; [done|]. split.
      * exists c'. split; [done|]. by apply Ascii.eqb_eq.
      * by apply IH.
Qed.

(** ** The five search patterns against the five forms *)

Lemma lang_comment (p t : string) :
  lang (Re.One (Re.CChar "#") :: Re.Star Re.CAny :: Re.escape p) t <->
  exists m u, t = "#" +:+ m +:+ u /\ on_one_line m /\ same_text p u.
Proof.
  cbn [lang node_lang]. split.
  - intros (t1 & t2 & -> & (c & -> & Hc) & (u1 & u2 & -> & H1 & H2)).
    apply accepts_marker in Hc as ->; [|auto].
    exists u1, u2. split; [done|]. split; [exact H1 | by apply lang_escape].
  - intros (m & u & -> & Hm & Hu).
    exists "#", (m +:+ u). split; [done|]. split; [by exists "#"%char|].
    exists m, u. split; [done|]. split; [exact Hm | by apply lang_escape].
Qed.

Lemma lang_key (p t : string) :
  lang (Re.escape p ++ [Re.Star Re.CSpace; Re.One (Re.CChar ":")]) t <->
  exists u m, t = u +:+ m +:+ ":" /\ blank m /\ same_text p u.
Proof.
  rewrite lang_app. cbn [lang node_lang]. split.
  - intros (u & t2 & -> & Hu & (m & t3 & -> & Hm & (k & e & -> & (c & -> & Hc) & ->))).
    apply accepts_marker in Hc as ->; [|auto].
    exists u, m. split; [done|]. split; [exact Hm | by apply lang_escape].
  - intros (u & m & -> & Hm & Hu).
    exists u, (m +:+ ":"). split; [done|]. split; [by apply lang_escape|].
    exists m, ":". split; [done|]. split; [exact Hm|].
    exists ":", "". split; [done|]. split; [by exists ":"%char | done].
Qed.

Lemma lang_backticks (p t : string) :
  lang (Re.One (Re.CChar "`") :: Re.escape p ++ [Re.One (Re.CChar "`")]) t <->
  exists u, t = "`" +:+ u +:+ "`" /\ same_text p u.
Proof.
  cbn [lang node_lang]. setoid_rewrite lang_app. cbn [lang node_lang]. split.
  - intros (t1 & t2 & -> & (c & -> & Hc) & (u & t3 & -> & Hu & (k & e & -> & (c' & -> & Hc') & ->))).
    apply accepts_marker in Hc as ->; [|auto].
    apply accepts_marker in Hc' as ->; [|auto].
    exists u. split; [done|]. by apply lang_escape.
  - intros (u & -> & Hu).
    exists "`", (u +:+ "`"). split; [done|]. split; [by exists "`"%char|].
    exists u, "`". split; [done|]. split; [by apply lang_escape|].
    exists "`", "". split; [done|]. split; [by exists "`"%char | done].
Qed.

Lemma lang_set (p t : string) :
  lang (Re.escape "--set" ++ Re.Star Re.CAny :: Re.escape p) t <->
  exists f m u, t = f +:+ m +:+ u /\ same_text "--set" f /\ on_one_line m /\ same_text p u.
Proof.
  rewrite lang_app. split.
  - intros (f & t2 & -> & Hf & (m & u & -> & Hm & Hu)).
    exists f, m, u. split; [done|]. split; [by apply lang_escape|].
    split; [exact Hm | by apply lang_escape].
  - intros (f & m & u & -> & Hf & Hm & Hu).
    exists f, (m +:+ u). split; [done|]. split; [by apply lang_escape|].
    exists m, u. split; [done|]. split; [exact Hm | by apply lang_escape].
Qed.

Lemma lang_table (p t : string) :
  lang (Re.One (Re.CChar "|") :: Re.Star Re.CSpace :: Re.escape p
        ++ [Re.Star Re.CSpace; Re.One (Re.CChar "|")]) t <->
  exists m1 u m2, t = "|" +:+ m1 +:+ u +:+ m2 +:+ "|"
                  /\ blank m1 /\ blank m2 /\ same_text p u.
Proof.
  cbn [lang node_lang]. setoid_rewrite lang_app. cbn [lang node_lang]. split.
  - intros (t1 & t2 & -> & (c & -> & Hc) & (m1 & t3 & -> & Hm1
            & (u & t4 & -> & Hu & (m2 & t5 & -> & Hm2 & (k & e & -> & (c' & -> & Hc') & ->))))).
    apply accepts_marker in Hc as ->; [|auto].
    apply accepts_marker in Hc' as ->; [|auto].
    exists m1, u, m2. split; [done|]. split; [exact Hm1|].
    split; [exact Hm2 | by apply lang_escape].
  - intros (m1 & u & m2 & -> & Hm1 & Hm2 & Hu).
    exists "|", (m1 +:+ u +:+ m2 +:+ "|"). split; [done|]. split; [by exists "|"%char|].
    exists m1, (u +:+ m2 +:+ "|"). split; [done|]. split; [exact Hm1|].
    exists u, (m2 +:+ "|"). split; [done|]. split; [by apply lang_escape|].
    exists m2, "|". split; [done|]. split; [exact Hm2|].
    exists "|", "". split; [done|]. split; [by exists "|"%char | done].
Qed.

Lemma any_search_spec (rs : list Re.regex) (all_content : string) :
  any_search rs all_content = true <-> exists r, r ∈ rs /\ occurs r all_content.
Proof.
  induction rs as [|r rs IH]; simpl.
  - split; [done|]. intros (r & Hr & _). by apply elem_of_nil in Hr.
  - destruct (Re.search r all_content) as [g|] eqn:Hs.
    + split; [|done]. intros _. exists r. split; [left|].
      apply search_spec. by rewrite Hs.
    + rewrite IH. split.
      * intros (r' & Hr' & Ho). exists r'. split; [by right | done].
      * intros (r' & Hr' & Ho). apply elem_of_cons in Hr' as [-> | Hr'].
        -- apply search_spec in Ho. rewrite Hs in Ho. by destruct Ho.
        -- by exists r'.
Qed.

(** The inner loop finds a hit exactly when the corpus mentions the
    pattern in one of the five forms. *)
Lemma any_search_mention (p all_content : string) :
  any_search (search_patterns p) all_content = true <-> mention p all_content.
Proof.
  rewrite any_search_spec. unfold search_patterns, occurs. split.
  - intros (r & Hr & (a & t & b & -> & Ht)).
    repeat (apply elem_of_cons in Hr as [-> | Hr]).
    + apply lang_comment in Ht as (m & u & -> & Hm & Hu).
      apply (in_comment _ _ a m u b); [|done..]. by rewrite !append_assoc.
    + apply lang_key in Ht as (u & m & -> & Hm & Hu).
      apply (as_key _ _ a u m b); [|done..]. by rewrite !append_assoc.
    + apply lang_backticks in Ht as (u & -> & Hu).
      apply (in_backticks _ _ a u b); [|done]. by rewrite !append_assoc.
    + apply lang_set in Ht as (f & m & u & -> & Hf & Hm & Hu).
      apply (after_set _ _ a f m u b); [|done..]. by rewrite !append_assoc.
    + apply lang_table in Ht as (m1 & u & m2 & -> & Hm1 & Hm2 & Hu).
      apply (in_table _ _ a m1 u m2 b); [|done..]. by rewrite !append_assoc.
    + by apply elem_of_nil in Hr.
  - intros [a m t b -> Hm Ht | a t m b -> Hm Ht | a t b -> Ht
           | a f m t b -> Hf Hm Ht | a m1 t m2 b -> Hm1 Hm2 Ht].
    + eexists. split; [apply list_elem_of_here|].
      exists a, ("#" +:+ m +:+ t), b. rewrite !append_assoc. split; [done|].
      apply lang_comment. by exists m, t.
    + eexists. split; [apply list_elem_of_further, list_elem_of_here|].
      exists a, (t +:+ m +:+ ":"), b. rewrite !append_assoc. split; [done|].
      apply lang_key. by exists t, m.
    + eexists. split; [do 2 apply list_elem_of_further; apply list_elem_of_here|].
      exists a, ("`" +:+ t +:+ "`"), b. rewrite !append_assoc. split; [done|].
      apply lang_backticks. by exists t.
    + eexists. split; [do 3 apply list_elem_of_further; apply list_elem_of_here|].
      exists a, (f +:+ m +:+ t), b. rewrite !append_assoc. split; [done|].
      apply lang_set. by exists f, m, t.
    + eexists. split; [do 4 apply list_elem_of_further; apply list_elem_of_here|].
      exists a, ("|" +:+ m1 +:+ t +:+ m2 +:+ "|"), b. rewrite !append_assoc. split; [done|].
      apply lang_table. by exists m1, t, m2.
Qed.

(** The outer loop stops at the first candidate that is mentioned. *)
Lemma first_hit_deciding (alias : string) (o : ConfigOption) (all_content c : string) :
  first_hit (patterns_of alias o) all_content = Some c <-> deciding alias o all_content c.
Proof.
  unfold deciding, patterns_of. cbn [first_hit].
  pose proof (any_search_mention (alias +:+ "." +:+ path o) all_content) as H1.
  pose proof (any_search_mention (path o) all_content) as H2.
  pose proof (any_search_mention (name o) all_content) as H3.
  destruct (any_search (search_patterns (alias +:+ "." +:+ path o)) all_content).
  { split; [intros [= <-]; left; split; [done | by apply H1] |].
    intros [[-> _] | [(_ & Hn & _) | (_ & Hn & _)]]; [done | |]; destruct Hn; by apply H1. }
  assert (Hn1 : ~ mention (alias +:+ "." +:+ path o) all_content)
    by (intros Hm; by apply H1 in Hm).
  destruct (any_search (search_patterns (path o)) all_content).
  { split; [intros [= <-]; right; left; split; [done|]; split; [done | by apply H2] |].
    intros [[_ Hm] | [(-> & _) | (_ & _ & Hn & _)]]; [done | done |].
    destruct Hn. by apply H2. }
  assert (Hn2 : ~ mention (path o) all_content) by (intros Hm; by apply H2 in Hm).
  destruct (any_search (search_patterns (name o)) all_content).
  { split; [intros [= <-]; right; right; repeat (split; [done|]); by apply H3 |].
    intros [[_ Hm] | [(_ & _ & Hm) | (-> & _)]]; done. }
  split; [done|].
  intros [[_ Hm] | [(_ & _ & Hm) | (_ & _ & _ & Hm)]]; [done | done |].
  by apply H3 in Hm.
Qed.

Lemma first_hit_none (alias : string) (o : ConfigOption) (all_content : string) :
  first_hit (patterns_of alias o) all_content = None <->
  forall c, c ∈ patterns_of alias o -> ~ mention c all_content.
Proof.
  unfold patterns_of. cbn [first_hit].
  pose proof (any_search_mention (alias +:+ "." +:+ path o) all_content) as H1.
  pose proof (any_search_mention (path o) all_content) as H2.
  pose proof (any_search_mention (name o) all_content) as H3.
  split.
  - intros Hf c Hc Hm.
    repeat (apply elem_of_cons in Hc as [-> | Hc]); [| | | by apply elem_of_nil in Hc].
    + apply H1 in Hm. by rewrite Hm in Hf.
    + apply H2 in Hm. rewrite Hm in Hf. by destruct (any_search _ _).
    + apply H3 in Hm. rewrite Hm in Hf. by repeat destruct (any_search _ _).
  - intros Hn.
    destruct (any_search (search_patterns (alias +:+ "." +:+ path o)) all_content) eqn:E1.
    { destruct (Hn (alias +:+ "." +:+ path o)); [left | by apply H1]. }
    destruct (any_search (search_patterns (path o)) all_content) eqn:E2.
    { destruct (Hn (path o)); [right; left | by apply H2]. }
    destruct (any_search (search_patterns (name o)) all_content) eqn:E3; [|done].
    destruct (Hn (name o)); [do 2 right; left | by apply H3].
Qed.

(** ** Extraction *)

Lemma value_nested_ind (P : value -> Prop) :
  P VNone -> (forall b, P (VBool b)) -> (forall z, P (VInt z)) ->
  (forall r, P (VFloat r)) -> (forall s, P (VStr s)) ->
  (forall items, Forall P items -> P (VList items)) ->
  (forall items, Forall (fun kv => P kv.2) items -> P (VDict items)) ->
  forall v, P v.
Proof.
  intros HN HB HI HF HS HL HD. fix IH 1. intros [| b | z | r | s | items | items].
  - exact HN.
  - apply HB.
  - apply HI.
  - apply HF.
  - apply HS.
  - apply HL. induction items as [|v items IHl]; constructor; [apply IH | exact IHl].
  - apply HD. induction items as [|[k v] items IHl]; constructor; [apply IH | exact IHl].
Qed.

Lemma extract_options_cons (exclude : list string) (key : string) (v : value)
    (rest : list (string * value)) (parent : string) :
  extract_options exclude (VDict ((key, v) :: rest)) parent =
  if Py.startswith key "_" then extract_options exclude (VDict rest) parent
  else if Py.contains exclude (current_path parent key)
  then extract_options exclude (VDict rest) parent
  else if is_dict v
  then extract_options exclude v (current_path parent key)
       ++ extract_options exclude (VDict rest) parent
  else new_option key (current_path parent key) (type_name v) v
       :: extract_options exclude (VDict rest) parent.
Proof.
  cbn [extract_options].
  destruct (Py.startswith key "_"); [done|].
  destruct (Py.contains exclude (current_path parent key)); [done|].
  by destruct v.
Qed.

Lemma extract_options_app (exclude : list string) (a b : list (string * value))
    (parent : string) :
  extract_options exclude (VDict (a ++ b)) parent =
  extract_options exclude (VDict a) parent ++ extract_options exclude (VDict b) parent.
Proof.
  induction a as [|[k v] a IH]; [done|].
  rewrite <- app_comm_cons, !extract_options_cons.
  destruct (Py.startswith k "_"); [done|].
  destruct (Py.contains exclude (current_path parent k)); [done|].
  destruct (is_dict v); rewrite IH; [by rewrite app_assoc | done].
Qed.

Lemma kept_spec (exclude : list string) (key cur : string) :
  kept exclude key cur <->
  Py.startswith key "_" = false /\ Py.contains exclude cur = false.
Proof.
  unfold kept. split; intros [H1 H2]; (split; [done|]).
  - apply not_true_is_false. intros H. by apply contains_spec in H.
  - intros H. apply contains_spec in H. congruence.
Qed.

(** What is extracted: the entries reached through kept keys whose value
    is not a mapping, each recorded with its key, path, kind and value. *)
Lemma extract_options_spec (exclude : list string) (data : value) :
  forall parent o,
  o ∈ extract_options exclude data parent <->
  exists key p v,
    visited exclude data parent key p v /\ is_dict v = false
    /\ o = new_option key p (type_name v) v.
Proof.
  induction data as [| | | | | |items IH] using value_nested_ind; intros parent o;
    try (split; [by intros ?%elem_of_nil | by intros (? & ? & ? & Hv & _); inversion Hv]).
  induction IH as [|[k v] items IHv _ IHitems].
  { split; [by intros ?%elem_of_nil|].
    intros (? & ? & ? & Hv & _). inversion Hv as [???? Hin|??????? Hin]; by apply elem_of_nil in Hin. }
  assert (Hrest : forall key p v',
    visited exclude (VDict items) parent key p v' ->
    visited exclude (VDict ((k, v) :: items)) parent key p v').
  { intros key p v' Hv. inversion Hv; subst.
    - apply visited_entry; [by right | done].
    - eapply visited_under; [by right | done..]. }
  rewrite extract_options_cons. simpl in IHv. split.
  - intros Hin.
    assert (Hgo : o ∈ extract_options exclude (VDict items) parent ->
      exists key p v', visited exclude (VDict ((k, v) :: items)) parent key p v'
        /\ is_dict v' = false /\ o = new_option key p (type_name v') v').
    { intros (key & p & v' & Hv & Hd & ->)%IHitems. exists key, p, v'. eauto. }
    destruct (Py.startswith k "_") eqn:Hs; [by apply Hgo|].
    destruct (Py.contains exclude (current_path parent k)) eqn:Hc; [by apply Hgo|].
    assert (Hk : kept exclude k (current_path parent k)) by by apply kept_spec.
    destruct (is_dict v) eqn:Hd.
    + apply elem_of_app in Hin as [Hin | Hin]; [|by apply Hgo].
      apply IHv in Hin as (key & p & v' & Hv & Hd' & ->).
      exists key, p, v'. split; [|done].
      destruct v; try done. eapply visited_under; [left | done..].
    + apply elem_of_cons in Hin as [-> | Hin]; [|by apply Hgo].
      exists k, (current_path parent k), v. split; [|done].
      apply visited_entry; [left | done].
  - intros (key & p & v' & Hv & Hd & ->).
    assert (Hgo : visited exclude (VDict items) parent key p v' ->
      new_option key p (type_name v') v' ∈ extract_options exclude (VDict items) parent).
    { intros Hv'. apply IHitems. exists key, p, v'. eauto. }
    inversion Hv as [? ? ? ? Hin Hk | ? ? k' sub ? ? ? Hin Hk Hsub]; subst.
    + apply kept_spec in Hk as Hk'. destruct Hk' as [Hs Hc].
      apply elem_of_cons in Hin as [[= <- <-] | Hin].
      * rewrite Hs, Hc, Hd. left.
      * assert (Hr : new_option key (current_path parent key) (type_name v') v'
                     ∈ extract_options exclude (VDict items) parent).
        { apply Hgo. by apply visited_entry. }
        destruct (Py.startswith k "_"); [done|].
        destruct (Py.contains exclude (current_path parent k)); [done|].
        destruct (is_dict v); [apply elem_of_app; by right | by right].
    + apply kept_spec in Hk as Hk'. destruct Hk' as [Hs Hc].
      apply elem_of_cons in Hin as [[= <- <-] | Hin].
      * rewrite Hs, Hc. simpl. apply elem_of_app. left. apply IHv.
        exists key, p, v'. eauto.
      * assert (Hr : new_option key p (type_name v') v'
                     ∈ extract_options exclude (VDict items) parent).
        { apply Hgo. by eapply visited_under. }
        destruct (Py.startswith k "_"); [done|].
        destruct (Py.contains exclude (current_path parent k)); [done|].
        destruct (is_dict v); [apply elem_of_app; by right | by right].
Qed.

Lemma extract_options_not_mapping (exclude : list string) (data : value) (parent : string) :
  is_dict data = false -> extract_options exclude data parent = [].
Proof. by destruct data. Qed.

Lemma visited_last_kept (exclude : list string) (data : value)
    (parent key p : string) (v : value) :
  visited exclude data parent key p v -> kept exclude key p.
Proof. induction 1; done. Qed.

(** ** The documentation check *)

Lemma read_into_run (w : world) (all_content p : string) (s : state) :
  read_into w all_content p s =
  (inr (with_file w all_content p), mkState (heap s) (trace s ++ probe_events w [p])).
Proof.
  unfold read_into, with_file, probe_events, path_exists, read_text, read_file,
    mbind, M_bind, mret, M_ret, emit.
  cbn [flat_map heap trace fst snd]. rewrite app_nil_r.
  destruct (files w (Pathlib.fspath p)); cbn [heap trace]; [|done].
  by rewrite <- app_assoc.
Qed.

Lemma read_all_run (w : world) (ps : list string) :
  forall all_content s, exists s',
    read_all w all_content ps s = (inr (fold_left (with_file w) ps all_content), s')
    /\ heap s' = heap s.
Proof.
  induction ps as [|p ps IH]; intros all_content s; simpl.
  - by exists s.
  - unfold mbind, M_bind. rewrite read_into_run.
    destruct (IH (with_file w all_content p)
                (mkState (heap s) (trace s ++ probe_events w [p])))
      as (s' & -> & Hh).
    by exists s'.
Qed.

Lemma hit_insert (all_content alias c : string) (h : list ConfigOption)
    (r : nat) (o : ConfigOption) (r' : nat) :
  h !! r = Some o ->
  hit all_content alias (<[r := add_documented_in c o]> h) r' <-> hit all_content alias h r'.
Proof.
  intros Ho. unfold hit. destruct (decide (r = r')) as [<- | Hne].
  - rewrite list_lookup_insert_eq by by eapply lookup_lt_Some. by rewrite Ho.
  - by rewrite list_lookup_insert_ne.
Qed.

Lemma mark_idemp (all_content alias : string) (o : ConfigOption) :
  mark all_content alias (mark all_content alias o) = mark all_content alias o.
Proof.
  unfold mark at 2.
  destruct (first_hit (patterns_of alias o) all_content) as [c|] eqn:Hf; unfold mark.
  - change (patterns_of alias (add_documented_in c o)) with (patterns_of alias o).
    rewrite Hf. unfold add_documented_in. simpl. f_equal.
    by rewrite (assoc_L (∪)), (idemp_L (∪)).
  - by rewrite Hf.
Qed.

(** The loop of [check_documentation]: the references that hit, in order,
    join [documented] and the others [undocumented]; the objects visited
    are marked and nothing else changes. *)
Lemma classify_run (all_content alias : string) (options : list nat) :
  forall documented undocumented s,
  valid_refs s options ->
  exists s',
    classify all_content alias options documented undocumented s =
      (inr (documented ++ filter (hit all_content alias (heap s)) options,
            undocumented ++ filter (fun r => ~ hit all_content alias (heap s) r) options), s')
    /\ trace s' = trace s
    /\ length (heap s') = length (heap s)
    /\ forall r o, heap s !! r = Some o ->
         heap s' !! r = Some (if decide (r ∈ options) then mark all_content alias o else o).
Proof.
  induction options as [|r0 rest IH]; intros documented undocumented s Hvalid.
  - exists s. simpl. rewrite !app_nil_r. repeat split; try done.
  - apply Forall_cons in Hvalid as [Hr0 Hvalid].
    apply lookup_lt_is_Some_2 in Hr0 as [o0 Ho0].
    cbn [classify]. unfold mbind, M_bind, deref. rewrite Ho0.
    destruct (first_hit (patterns_of alias o0) all_content) as [c|] eqn:Hf.
    + unfold update. rewrite Ho0.
      set (s1 := mkState (<[r0 := add_documented_in c o0]> (heap s)) (trace s)).
      assert (Hvalid1 : valid_refs s1 rest).
      { unfold valid_refs, s1. simpl. by rewrite length_insert. }
      destruct (IH (documented ++ [r0]) undocumented s1 Hvalid1)
        as (s' & -> & Htr & Hlen & Hheap).
      assert (Hhit0 : hit all_content alias (heap s) r0).
      { unfold hit. rewrite Ho0.
        change (is_Some (first_hit (patterns_of alias o0) all_content)). by rewrite Hf. }
      exists s'. split; [|split; [done|split]].
      * assert (E1 : filter (hit all_content alias (heap s1)) rest
                     = filter (hit all_content alias (heap s)) rest).
        { apply list_filter_iff. intros r'. by apply hit_insert. }
        assert (E2 : filter (fun r => ~ hit all_content alias (heap s1) r) rest
                     = filter (fun r => ~ hit all_content alias (heap s) r) rest).
        { apply list_filter_iff. intros r'. unfold s1. simpl. by rewrite hit_insert. }
        rewrite E1, E2, filter_cons_True by done.
        rewrite filter_cons_False by (intros Hn; by apply Hn).
        by rewrite <- app_assoc.
      * rewrite Hlen. unfold s1. simpl. by rewrite length_insert.
      * intros r o Ho. unfold s1 in Hheap. simpl in Hheap.
        destruct (decide (r = r0)) as [-> | Hne].
        -- rewrite Ho0 in Ho. injection Ho as <-.
           rewrite (Hheap r0 (add_documented_in c o0))
             by (apply list_lookup_insert_eq; by eapply lookup_lt_Some).
           rewrite (decide_True (P := r0 ∈ r0 :: rest)) by left. f_equal.
           assert (Hm : mark all_content alias o0 = add_documented_in c o0)
             by (unfold mark; by rewrite Hf).
           destruct (decide (r0 ∈ rest)); [|done].
           by rewrite <- Hm, mark_idemp.
        -- rewrite (Hheap r o) by by rewrite list_lookup_insert_ne.
           f_equal. destruct (decide (r ∈ rest)) as [Hin | Hnin].
           ++ rewrite decide_True; [done | by right].
           ++ rewrite decide_False; [done|]. intros [? | ?]%elem_of_cons; done.
    + destruct (IH documented (undocumented ++ [r0]) s Hvalid)
        as (s' & -> & Htr & Hlen & Hheap).
      assert (Hhit0 : ~ hit all_content alias (heap s) r0).
      { unfold hit. rewrite Ho0.
        change (~ is_Some (first_hit (patterns_of alias o0) all_content)).
        rewrite Hf. by intros [? ?]. }
      exists s'. split; [|split; [done|split; [done|]]].
      * rewrite filter_cons_False by done.
        rewrite filter_cons_True by done. by rewrite <- app_assoc.
      * intros r o Ho. rewrite (Hheap r o Ho). f_equal.
        destruct (decide (r = r0)) as [-> | Hne].
        -- rewrite Ho0 in Ho. injection Ho as <-.
           rewrite (decide_True (P := r0 ∈ r0 :: rest)) by left.
           assert (Hm : mark all_content alias o0 = o0) by (unfold mark; by rewrite Hf).
           destruct (decide (r0 ∈ rest)); by rewrite ?Hm.
        -- destruct (decide (r ∈ rest)) as [Hin | Hnin].
           ++ rewrite decide_True; [done | by right].
           ++ rewrite decide_False; [done|]. intros [? | ?]%elem_of_cons; done.
Qed.

Lemma check_documentation_run (w : world) (options : list nat) (our_values : string)
    (doc_files : list string) (alias : string) (s : state) :
  valid_refs s options ->
  let all_content := corpus w our_values doc_files in
  exists s',
    check_documentation w options our_values doc_files alias s =
      (inr (filter (hit all_content alias (heap s)) options,
            filter (fun r => ~ hit all_content alias (heap s) r) options), s')
    /\ length (heap s') = length (heap s)
    /\ forall r o, heap s !! r = Some o ->
         heap s' !! r = Some (if decide (r ∈ options) then mark all_content alias o else o).
Proof.
  intros Hvalid all_content. unfold check_documentation, mbind, M_bind.
  rewrite read_into_run.
  match goal with |- context [read_all w ?c doc_files ?s0] =>
    destruct (read_all_run w doc_files c s0) as (s1 & -> & Hh1) end.
  simpl in Hh1.
  assert (Hvalid1 : valid_refs s1 options) by (unfold valid_refs; by rewrite Hh1).
  destruct (classify_run (fold_left (with_file w) doc_files (with_file w "" our_values))
              alias options [] [] s1 Hvalid1) as (s' & Hc & _ & Hlen & Hheap).
  exists s'. rewrite Hc, Hh1 in *. split; [done|]. split; [done|].
  intros r o Ho. by apply Hheap.
Qed.

Lemma hit_spec (all_content alias : string) (h : list ConfigOption) (r : nat)
    (o : ConfigOption) :
  h !! r = Some o ->
  hit all_content alias h r <->
  exists c, c ∈ patterns_of alias o /\ mention c all_content.
Proof.
  intros Ho. unfold hit. rewrite Ho.
  change (is_Some (first_hit (patterns_of alias o) all_content)
          <-> exists c, c ∈ patterns_of alias o /\ mention c all_content).
  split.
  - intros [c Hc]. exists c. apply first_hit_deciding in Hc.
    unfold patterns_of.
    destruct Hc as [[-> Hm] | [(-> & _ & Hm) | (-> & _ & _ & Hm)]];
      (split; [|done]); set_solver.
  - intros (c & Hc & Hm).
    destruct (first_hit (patterns_of alias o) all_content) eqn:Hf; [eauto|].
    destruct (proj1 (first_hit_none alias o all_content) Hf c Hc Hm).
Qed.

(** ** The claims on extraction *)

(** C2. For the tree [{env: {debug: false, hostOS: "ci"}}] and the exclusion
    list [["env.hostOS"]], extraction yields exactly one option: its path is
    [env.debug], its type is the one of a boolean, [bool], and its default
    is [false]. *)
Theorem extract_options_scenario :
  exists o,
    extract_options ["env.hostOS"] Scenario.tree "" = [o]
    /\ path o = "env.debug"
    /\ type o = type_name (VBool false) /\ type o = "bool"
    /\ default o = VBool false.
Proof. eexists. split; [reflexivity|]. repeat split. Qed.

(** C7. No extracted option has a path of the exclusion list, and every key
    on the way from the root to an extracted option is kept: none begins
    with the marker [_] and none has an excluded path.  An entry whose key
    begins with the marker or whose path is excluded is passed over whole,
    mapping or not: extraction is the same without it. *)
Theorem extract_options_skips (exclude : list string) (data : value) (parent : string) :
  (forall o, o ∈ extract_options exclude data parent ->
     (path o ∉ exclude)
     /\ Py.startswith (name o) "_" = false
     /\ visited exclude data parent (name o) (path o) (default o))
  /\ (forall before key v after,
        data = VDict (before ++ (key, v) :: after) ->
        Py.startswith key "_" = true \/ current_path parent key ∈ exclude ->
        extract_options exclude data parent
        = extract_options exclude (VDict (before ++ after)) parent).
Proof.
  split.
  - intros o (key & p & v & Hv & _ & ->)%extract_options_spec. simpl.
    destruct (visited_last_kept _ _ _ _ _ _ Hv) as [Hs Hp]. done.
  - intros before key v after -> Hskip.
    rewrite !extract_options_app, extract_options_cons.
    destruct Hskip as [-> | Hin]; [done|].
    apply contains_spec in Hin. rewrite Hin. by destruct (Py.startswith key "_").
Qed.

Lemma extract_options_skips_witness :
  ("env.debug" ∉ ["env.hostOS"])
  /\ extract_options ["env.hostOS"]
       (VDict [("debug", VBool false); ("hostOS", VStr "ci")]) "env"
     = extract_options ["env.hostOS"] (VDict [("debug", VBool false)]) "env".
Proof.
  split.
  - apply (proj1 (extract_options_skips ["env.hostOS"] Scenario.tree "")
             (new_option "debug" "env.debug" "bool" (VBool false))).
    vm_compute. left.
  - apply (proj2 (extract_options_skips ["env.hostOS"]
                    (VDict [("debug", VBool false); ("hostOS", VStr "ci")]) "env")
             [("debug", VBool false)] "hostOS" (VStr "ci") []).
    + reflexivity.
    + right. vm_compute. left.
Defined.

(** C8. Every extracted option is a leaf: its default is not a mapping, its
    recorded type is the name of the kind of its default, and that name is
    never the one of a mapping. *)
Theorem extract_options_leaves (exclude : list string) (data : value)
    (parent : string) (o : ConfigOption) :
  o ∈ extract_options exclude data parent ->
  is_dict (default o) = false
  /\ type o = type_name (default o)
  /\ forall items, type o <> type_name (VDict items).
Proof.
  intros (key & p & v & _ & Hd & ->)%extract_options_spec. simpl.
  split; [done|]. split; [done|]. intros items. by destruct v.
Qed.

Lemma extract_options_leaves_witness :
  is_dict (VBool false) = false
  /\ "bool" = type_name (VBool false)
  /\ forall items, "bool" <> type_name (VDict items).
Proof.
  apply (extract_options_leaves ["env.hostOS"] Scenario.tree ""
           (new_option "debug" "env.debug" "bool" (VBool false))).
  vm_compute. left.
Defined.

(** ** The claims on the documentation check *)

(** C3. For every list of options and every corpus, the check returns two
    lists that partition the input: together they hold every input option
    as often as the input does, no option is in both, and each list keeps
    the order of the input. *)
Theorem check_documentation_partitions (w : world) (options : list nat)
    (our_values : string) (doc_files : list string) (alias : string) (s : state) :
  valid_refs s options ->
  exists documented undocumented s',
    check_documentation w options our_values doc_files alias s
      = (inr (documented, undocumented), s')
    /\ (documented ++ undocumented) ≡ₚ options
    /\ (forall r, r ∈ documented -> r ∉ undocumented)
    /\ sublist documented options /\ sublist undocumented options.
Proof.
  intros Hvalid.
  destruct (check_documentation_run w options our_values doc_files alias s Hvalid)
    as (s' & Hrun & _).
  eexists _, _, s'. split; [exact Hrun|]. split; [apply filter_app_complement|].
  split; [|split; apply sublist_filter].
  intros r [Hhit _]%list_elem_of_filter [Hno _]%list_elem_of_filter. done.
Qed.

Lemma check_documentation_partitions_witness :
  exists documented undocumented s',
    check_documentation Scenario.commented [0] "values.yaml" ["README.md"]
      subchart_alias Scenario.one_option = (inr (documented, undocumented), s')
    /\ (documented ++ undocumented) ≡ₚ [0]
    /\ (forall r, r ∈ documented -> r ∉ undocumented)
    /\ sublist documented [0] /\ sublist undocumented [0].
Proof.
  apply check_documentation_partitions.
  constructor; [vm_compute; lia | constructor].
Defined.



(** The scenario of the comment line: the option counts as documented by
    its prefixed path. *)
Example check_documentation_comment_line :
  exists s',
    check_documentation Scenario.commented [0] "values.yaml" ["README.md"]
      subchart_alias Scenario.one_option = (inr ([0], []), s')
    /\ (documented_in <$> heap s' !! 0) = Some {[ "kata-as-coco-runtime.env.debug" ]}.
Proof. eexists. split; vm_compute; reflexivity. Qed.

(** Line ends are translated before the corpus is searched: a comment ends
    at a carriage return, so what follows it on the next line is not
    mentioned by that comment. *)
Example comment_ends_at_carriage_return :
  let stored := "# see" +:+ String (Py.chr 13) "env.debug" in
  let w := Scenario.machine [("values.yaml", stored)] in
  corpus w "values.yaml" [] = "# see" +:+ Py.nl +:+ "env.debug" +:+ Py.nl
  /\ first_hit ["env.debug"] (corpus w "values.yaml" []) = None
  /\ first_hit ["env.debug"] stored = Some "env.debug".
Proof. vm_compute. repeat split. Qed.

(** Paths as [pathlib] writes them: the chart in the working directory,
    a trailing slash, a doubled slash and a [.] component. *)
Example paths_are_normalised :
  path_join "." "values.yaml" = "values.yaml"
  /\ path_join "upstream/" "values.yaml" = "upstream/values.yaml"
  /\ path_join "" "README.md" = "README.md"
  /\ Pathlib.fspath "./docs//README.md" = "docs/README.md"
  /\ Pathlib.fspath "" = ".".
Proof. vm_compute. repeat split. Qed.

(** ** Running the coordinator *)

Ltac run_step :=
  repeat progress
    (unfold mbind, M_bind, mret, M_ret, raise, emit, print, path_exists, read_text, read_file,
       load, stat_tmp, write_tmp, py_get, py_iter; cbn [fst snd heap trace]).

Lemma find_version_run (deps : list value) (s : state) :
  exists r, find_version deps s = (r, s) /\ forall e, r = inl e -> e = AttributeError.
Proof.
  induction deps as [|dep deps IH]; simpl.
  - by exists (inr (VStr "unknown")).
  - destruct dep as [| | | | | |items]; run_step;
      try (exists (inl AttributeError); split; [done | by intros e [= <-]]).
    destruct (eq_str (dict_get items "name" VNone) "kata-deploy"); [|exact IH].
    eexists. split; [done|]. done.
Qed.

Lemma eq_str_spec (v : value) (t : string) : eq_str v t = true <-> v = VStr t.
Proof.
  destruct v; simpl; try (split; [done | by intros [=]]).
  rewrite String.eqb_eq. split; [by intros -> | by intros [=]].
Qed.

Lemma find_version_unpinned (deps : list value) (s : state) :
  (forall dep, dep ∈ deps -> is_dict dep = true /\ ~ names_kata_deploy dep) ->
  find_version deps s = (inr (VStr "unknown"), s).
Proof.
  induction deps as [|dep deps IH]; intros Hdeps; [done|].
  destruct (Hdeps dep ltac:(left)) as [Hd Hn].
  destruct dep as [| | | | | |items]; try done. simpl. run_step.
  destruct (eq_str (dict_get items "name" VNone) "kata-deploy") eqn:He.
  - destruct Hn. exists items. split; [done|]. by apply eq_str_spec.
  - apply IH. intros dep' Hin. apply Hdeps. by right.
Qed.

(** Resolving the version only looks at [Chart.yaml]; when it fails, it
    fails with an error of the interpreter, never with an exit request. *)
Lemma resolve_version_run (safe_load : string -> option value) (w : world) (s : state) :
  exists r,
    resolve_version safe_load w s
      = (r, mkState (heap s) (trace s ++ manifest_events w))
    /\ forall e, r = inl e -> e = AttributeError \/ e = TypeError \/ e = YAMLError.
Proof.
  unfold resolve_version, manifest_events. run_step.
  destruct (files w "Chart.yaml") as [text|]; [|by eexists].
  cbn [fst snd heap trace]. rewrite <- app_assoc. simpl.
  destruct (safe_load text) as [chart_data|];
    [|exists (inl YAMLError); split; [done | intros e [= <-]; auto]].
  destruct chart_data as [| | | | | |items]; simpl;
    try (exists (inl AttributeError); split; [done | intros e [= <-]; auto]).
  destruct (dict_get items "dependencies" (VList [])) as [| | | | |deps|deps]; simpl;
    try (exists (inl TypeError); split; [done | intros e [= <-]; auto]).
  - match goal with |- context [find_version ?d ?s0] =>
      destruct (find_version_run d s0) as (r & -> & Hr) end.
    exists r. split; [done|]. intros e He. left. by apply Hr.
  - match goal with |- context [find_version ?d ?s0] =>
      destruct (find_version_run d s0) as (r & -> & Hr) end.
    exists r. split; [done|]. intros e He. left. by apply Hr.
  - match goal with |- context [find_version ?d ?s0] =>
      destruct (find_version_run d s0) as (r & -> & Hr) end.
    exists r. split; [done|]. intros e He. left. by apply Hr.
Qed.

Lemma parse_missing (safe_load : string -> option value) (repr_container : value -> string)
    (w : world) (chart_path : string) (kata_version : value)
    (exclude : option (list string)) (s : state) :
  files w (path_join chart_path "values.yaml") = None ->
  parse_kata_deploy_values safe_load repr_container w chart_path kata_version exclude s
  = (inl (SystemExit 1),
     mkState (heap s)
       (trace s ++ [EvExists (path_join chart_path "values.yaml");
                    EvPrint ("Error: kata-deploy values.yaml not found at "
                             +:+ path_join chart_path "values.yaml")])).
Proof.
  intros Hmissing. unfold parse_kata_deploy_values. run_step.
  rewrite Hmissing. simpl. by rewrite <- app_assoc.
Qed.

Lemma stages_missing (safe_load : string -> option value) (repr_container : value -> string)
    (format_pct : nat -> nat -> string) (w : world) (a : args)
    (kata_version : value) (s : state) :
  files w (path_join (kata_deploy_chart a) "values.yaml") = None ->
  stages safe_load repr_container format_pct w a kata_version s
  = (inl (SystemExit 1),
     mkState (heap s)
       (trace s ++ missing_values_events (str_value repr_container kata_version)
                     (kata_deploy_chart a))).
Proof.
  intros Hmissing. unfold stages, report_stages. run_step.
  rewrite parse_missing by done. cbn [heap trace].
  by rewrite <- !app_assoc.
Qed.


(** With no option at all, rendering stops at the division. *)
Lemma generate_report_empty (repr_container : value -> string)
    (format_pct : nat -> nat -> string) (w : world) (kata_version : value)
    (fmt alias : string) (s : state) :
  exists e s',
    generate_report repr_container format_pct w kata_version [] [] fmt alias s
      = (inl e, s')
    /\ heap s' = heap s
    /\ (forall ev, ev ∈ trace s' -> ev ∈ trace s \/ ev = EvStat "/tmp")
    /\ e = (if String.eqb fmt "github" && negb (bool_decide (is_Some (tmp_mtime w)))
            then FileNotFoundError else ZeroDivisionError).
Proof.
  unfold generate_report, coverage. destruct (String.eqb fmt "github"); run_step.
  - destruct (tmp_mtime w) as [m|]; simpl; eexists _, _;
      (split; [reflexivity|]); (split; [done|]); (split; [|done]);
      intros ev [H | H%list_elem_of_singleton]%elem_of_app; auto.
  - exists ZeroDivisionError, s. repeat split; auto.
Qed.

Lemma probe_events_quiet (w : world) (ps : list string) :
  Forall writes_nothing (probe_events w ps).
Proof.
  induction ps as [|p ps IH]; [constructor|].
  cbn [probe_events flat_map]. constructor; [done|].
  apply Forall_app. split; [|exact IH].
  by destruct (files w (Pathlib.fspath p)); repeat constructor.
Qed.

Lemma read_all_quiet (w : world) (ps : list string) :
  forall all_content s, exists l,
    (read_all w all_content ps s).2 = mkState (heap s) (trace s ++ l)
    /\ Forall writes_nothing l.
Proof.
  induction ps as [|p ps IH]; intros all_content s; simpl.
  - exists []. rewrite app_nil_r. by destruct s.
  - unfold mbind, M_bind. rewrite read_into_run.
    match goal with |- context [read_all w ?c ps ?s0] =>
      destruct (IH c s0) as (l & Hl & Hq);
      destruct (read_all_run w ps c s0) as (s1 & Hrun & _) end.
    rewrite Hrun in *. cbn [snd heap trace] in Hl. rewrite Hl. cbn [heap trace].
    eexists. rewrite <- app_assoc. split; [reflexivity|].
    apply Forall_app. split; [|done]. apply probe_events_quiet.
Qed.

(** With nothing extracted, parsing returns the empty list and writes no
    file. *)
Lemma parse_no_options (safe_load : string -> option value)
    (repr_container : value -> string) (w : world) (chart_path text : string)
    (data kata_version : value) (exclude : list string) (s : state) :
  files w (path_join chart_path "values.yaml") = Some text ->
  safe_load text = Some data ->
  extract_options exclude data "" = [] ->
  exists l,
    parse_kata_deploy_values safe_load repr_container w chart_path kata_version
      (Some exclude) s = (inr [], mkState (heap s) (trace s ++ l))
    /\ Forall writes_nothing l.
Proof.
  intros Hfile Hload Hnone. unfold parse_kata_deploy_values, fetch_github_readme.
  run_step. rewrite Hfile. cbn [negb]. run_step. rewrite Hload, Hnone. simpl.
  run_step.
  destruct (files w (path_join chart_path "README.md")) as [readme|]; run_step.
  { destruct (Py.truthy (Py.universal_newlines readme)); simpl;
      (eexists; rewrite <- !app_assoc; split; [reflexivity | by repeat constructor]). }
  destruct (truthy_value kata_version); run_step;
    [|eexists; rewrite <- !app_assoc; split; [reflexivity | by repeat constructor]].
  destruct (has_requests w); simpl; run_step;
    [|eexists; rewrite <- !app_assoc; split; [reflexivity | by repeat constructor]].
  match goal with |- context [http_get w ?url] =>
    destruct (http_get w url) as [msg | [code body]] end; run_step.
  - eexists; rewrite <- !app_assoc; split; [reflexivity | by repeat constructor].
  - destruct (code =? 200)%nat; run_step; [destruct (Py.truthy body)|]; simpl;
      (eexists; rewrite <- !app_assoc; split; [reflexivity | by repeat constructor]).
Qed.

Lemma quiet_no_new_write (t l : list event) (p txt : string) :
  Forall writes_nothing l -> EvWrite p txt ∈ t ++ l -> EvWrite p txt ∈ t.
Proof.
  intros Hq [H | H]%elem_of_app; [done|].
  rewrite Forall_forall in Hq. destruct (Hq _ H).
Qed.

(** From the first progress line on, a chart without options leads to the
    division by zero, or to the missing [/tmp] in the [github] format;
    nothing is written. *)
Lemma stages_no_options (safe_load : string -> option value)
    (repr_container : value -> string) (format_pct : nat -> nat -> string)
    (w : world) (a : args) (text : string) (data kata_version : value) (s : state) :
  files w (path_join (kata_deploy_chart a) "values.yaml") = Some text ->
  safe_load text = Some data ->
  extract_options exclude_options data "" = [] ->
  exists e s',
    stages safe_load repr_container format_pct w a kata_version s = (inl e, s')
    /\ (e = ZeroDivisionError
        \/ (e = FileNotFoundError /\ tmp_mtime w = None /\ output_format a = "github"))
    /\ forall p txt, EvWrite p txt ∈ trace s' -> EvWrite p txt ∈ trace s.
Proof.
  intros Hfile Hload Hnone. unfold stages, report_stages, mbind, M_bind.
  unfold print at 1 2 3. unfold emit. cbn [heap trace].
  match goal with |- context [parse_kata_deploy_values _ _ _ _ _ _ ?s0] =>
    destruct (parse_no_options safe_load repr_container w (kata_deploy_chart a) text
                data kata_version exclude_options s0 Hfile Hload Hnone)
      as (l1 & -> & Hq1) end.
  unfold print at 1 2. unfold emit. cbn [heap trace length].
  unfold check_documentation, mbind, M_bind. rewrite read_into_run.
  match goal with |- context [read_all w ?c (our_docs a) ?s0] =>
    destruct (read_all_quiet w (our_docs a) c s0) as (l2 & Hl2 & Hq2);
    destruct (read_all_run w (our_docs a) c s0) as (s2 & Hrun & _) end.
  rewrite Hrun in *. cbn [snd heap trace] in Hl2. subst s2. cbn [classify].
  unfold mret, M_ret.
  match goal with |- context [generate_report _ _ _ _ _ _ ?f ?al ?s0] =>
    destruct (generate_report_empty repr_container format_pct w kata_version f al s0)
      as (e & s' & -> & _ & Htr & He) end.
  exists e, s'. split; [done|]. split.
  - subst e. destruct (String.eqb (output_format a) "github") eqn:Hfmt; [|by left].
    destruct (tmp_mtime w) as [m|] eqn:Htmp; simpl.
    + by left.
    + right. repeat split. by apply String.eqb_eq.
  - intros p txt Hin. destruct (Htr _ Hin) as [Hold | ?]; [|done].
    cbn [trace] in Hold. rewrite <- !app_assoc in Hold.
    apply (quiet_no_new_write (trace s)) in Hold; [done|].
    rewrite !Forall_app. repeat split; try apply probe_events_quiet; try done;
      by repeat constructor.
Qed.

(** ** Failures and the exit status *)



















(** ** The claims on the report and on the coordinator *)

(** C1. What [generate_report] does for the partition with no documented
    and no undocumented option: in both formats it raises instead of
    returning a report; the exception is the division by zero, unless the
    [github] format already failed on a missing [/tmp]. *)
Theorem generate_report_zero_options (repr_container : value -> string)
    (format_pct : nat -> nat -> string) (w : world) (kata_version : value)
    (fmt alias : string) (s : state) :
  (generate_report repr_container format_pct w kata_version [] [] "text" alias s).1
    = inl ZeroDivisionError
  /\ (generate_report repr_container format_pct w kata_version [] [] "github" alias s).1
     = inl (match tmp_mtime w with
            | Some _ => ZeroDivisionError
            | None => FileNotFoundError
            end)
  /\ exists e, (generate_report repr_container format_pct w kata_version [] [] fmt alias s).1
               = inl e.
Proof.
  split; [|split].
  - destruct (generate_report_empty repr_container format_pct w kata_version "text" alias s)
      as (e & s' & -> & _ & _ & ->). done.
  - destruct (generate_report_empty repr_container format_pct w kata_version "github" alias s)
      as (e & s' & -> & _ & _ & ->). simpl. by destruct (tmp_mtime w).
  - destruct (generate_report_empty repr_container format_pct w kata_version fmt alias s)
      as (e & s' & -> & _). by exists e.
Qed.

(** C4. A run on a chart from which nothing is extracted: nothing is
    undocumented, so the closing block would ask for status 0, and yet the
    process ends with status 1, on an exception raised before that block. *)
Theorem main_status_without_options (safe_load : string -> option value)
    (repr_container : value -> string) (format_pct : nat -> nat -> string)
    (w : world) (a : args) (text : string) (data : value) (s : state) :
  files w (path_join (kata_deploy_chart a) "values.yaml") = Some text ->
  safe_load text = Some data ->
  extract_options exclude_options data "" = [] ->
  (check_documentation w [] (our_values a) (our_docs a) subchart_alias s).1
    = inr ([], [])
  /\ status_policy a [] = 0
  /\ exit_status (main safe_load repr_container format_pct w a s).1 = 1.
Proof.
  intros Hfile Hload Hnone. split; [|split; [done|]].
  - destruct (check_documentation_run w [] (our_values a) (our_docs a) subchart_alias s)
      as (s' & -> & _); [constructor | done].
  - destruct (resolve_version_run safe_load w s) as (r & Hr & He).
    unfold main, mbind, M_bind. rewrite Hr. destruct r as [e | kata_version].
    + by destruct (He e eq_refl) as [-> | [-> | ->]].
    + match goal with |- context [stages _ _ _ _ _ _ ?s0] =>
        destruct (stages_no_options safe_load repr_container format_pct w a text data
                    kata_version s0 Hfile Hload Hnone) as (e & s' & -> & He' & _) end.
      by destruct He' as [-> | (-> & _)].
Qed.

Lemma main_status_without_options_witness :
  (check_documentation Scenario.no_options [] (our_values Scenario.cli)
     (our_docs Scenario.cli) subchart_alias start).1 = inr ([], [])
  /\ status_policy Scenario.cli [] = 0
  /\ exit_status (main Scenario.safe_load Scenario.repr_container Scenario.format_pct
                    Scenario.no_options Scenario.cli start).1 = 1.
Proof.
  apply (main_status_without_options Scenario.safe_load Scenario.repr_container
           Scenario.format_pct Scenario.no_options Scenario.cli "{}" (VDict []) start);
    vm_compute; reflexivity.
Defined.

(** The run on the empty mapping, spelled out. *)
Example no_options_run :
  (main Scenario.safe_load Scenario.repr_container Scenario.format_pct
     Scenario.no_options Scenario.cli start).1 = inl ZeroDivisionError.
Proof. vm_compute. reflexivity. Qed.

(** Runs that reach the closing block, in the three settings of the flags. *)
Example main_status_with_options :
  let commented := main Scenario.safe_load Scenario.repr_container Scenario.format_pct
                     Scenario.commented Scenario.cli start in
  let bare := main Scenario.safe_load Scenario.repr_container Scenario.format_pct
                (Scenario.machine [("upstream/values.yaml", "tree")]) in
  commented.1 = inl (SystemExit 0)
  /\ exit_status (bare Scenario.cli start).1 = 0
  /\ exit_status (bare (mkArgs "upstream" "values.yaml" ["README.md"] "text" true) start).1 = 1
  /\ exit_status (bare (mkArgs "upstream" "values.yaml" ["README.md"] "github" false) start).1 = 1.
Proof. vm_compute. repeat split. Qed.

(** A manifest that is not a mapping stops the version lookup at the first
    [.get]: nothing has been printed and nothing else looked for. *)
Lemma resolve_version_not_mapping (safe_load : string -> option value) (w : world)
    (text : string) (chart_data : value) (s : state) :
  files w "Chart.yaml" = Some text ->
  safe_load text = Some chart_data ->
  is_dict chart_data = false ->
  resolve_version safe_load w s
  = (inl AttributeError,
     mkState (heap s) (trace s ++ [EvExists "Chart.yaml"; EvRead "Chart.yaml"])).
Proof.
  intros Hfile Hload Hdict. unfold resolve_version. run_step.
  rewrite Hfile. cbn [fst snd heap trace]. rewrite Hload.
  destruct chart_data; try discriminate Hdict; cbn [fst snd]; by rewrite <- app_assoc.
Qed.

Lemma main_not_mapping_manifest (safe_load : string -> option value)
    (repr_container : value -> string) (format_pct : nat -> nat -> string)
    (w : world) (a : args) (text : string) (chart_data : value) (s : state) :
  files w "Chart.yaml" = Some text ->
  safe_load text = Some chart_data ->
  is_dict chart_data = false ->
  main safe_load repr_container format_pct w a s
  = (inl AttributeError,
     mkState (heap s) (trace s ++ [EvExists "Chart.yaml"; EvRead "Chart.yaml"])).
Proof.
  intros Hfile Hload Hdict. unfold main, mbind, M_bind.
  by rewrite (resolve_version_not_mapping safe_load w text chart_data s).
Qed.

(** C5. The claim fails on the code where the manifest is not a mapping,
    an empty [Chart.yaml] for one: with no [values.yaml] in the upstream
    chart, the process does end with status 1, but on the [AttributeError]
    of the version lookup.  All it has done by then is look for
    [Chart.yaml] and read it: the upstream [values.yaml] was never looked
    for and no error line was printed. *)
Theorem missing_values_unreported (safe_load : string -> option value)
    (repr_container : value -> string) (format_pct : nat -> nat -> string)
    (w : world) (a : args) (text : string) (chart_data : value) (s : state) :
  files w (path_join (kata_deploy_chart a) "values.yaml") = None ->
  files w "Chart.yaml" = Some text ->
  safe_load text = Some chart_data ->
  is_dict chart_data = false ->
  exists s',
    main safe_load repr_container format_pct w a s = (inl AttributeError, s')
    /\ exit_status (inl AttributeError : exn + unit) = 1
    /\ heap s' = heap s
    /\ trace s' = trace s ++ [EvExists "Chart.yaml"; EvRead "Chart.yaml"]
    /\ forall msg, EvPrint msg ∈ trace s' -> EvPrint msg ∈ trace s.
Proof.
  intros _ Hfile Hload Hdict. eexists. split.
  - by apply (main_not_mapping_manifest _ _ _ _ _ text chart_data).
  - cbn [heap trace]. repeat split.
    intros msg [H | H]%elem_of_app; [done|].
    apply elem_of_cons in H as [[=] | H].
    apply elem_of_cons in H as [[=] | H]. by apply elem_of_nil in H.
Qed.

Lemma missing_values_unreported_witness :
  exists s',
    main Scenario.safe_load Scenario.repr_container Scenario.format_pct
      Scenario.only_empty_manifest Scenario.cli start = (inl AttributeError, s')
    /\ exit_status (inl AttributeError : exn + unit) = 1
    /\ heap s' = heap start
    /\ trace s' = trace start ++ [EvExists "Chart.yaml"; EvRead "Chart.yaml"]
    /\ forall msg, EvPrint msg ∈ trace s' -> EvPrint msg ∈ trace start.
Proof.
  apply (missing_values_unreported Scenario.safe_load Scenario.repr_container
           Scenario.format_pct Scenario.only_empty_manifest Scenario.cli "" VNone start);
    reflexivity.
Defined.

(** The two runs side by side: with a manifest that pins the version the
    missing file is reported; with an empty manifest it is not. *)
Example missing_values_run :
  main Scenario.safe_load Scenario.repr_container Scenario.format_pct
    Scenario.no_values Scenario.cli start
  = (inl (SystemExit 1),
     mkState []
       [EvExists "Chart.yaml"; EvRead "Chart.yaml";
        EvPrint "🔍 Validating documentation against kata-deploy 3.21.0...";
        EvPrint "📖 Parsing kata-deploy chart from upstream...";
        EvPrint "   Excluding options only relevant for CI: env.hostOS";
        EvExists "upstream/values.yaml";
        EvPrint "Error: kata-deploy values.yaml not found at upstream/values.yaml"])
  /\ main Scenario.safe_load Scenario.repr_container Scenario.format_pct
       Scenario.only_empty_manifest Scenario.cli start
     = (inl AttributeError, mkState [] [EvExists "Chart.yaml"; EvRead "Chart.yaml"]).
Proof. split; vm_compute; reflexivity. Qed.

(** C9. The claim fails on the code: a manifest that exists and is not a
    mapping, as an empty [Chart.yaml] is, holds no entry for kata-deploy,
    and yet resolving the version raises [AttributeError] on it and the
    process ends with status 1 instead of going on under [unknown]. *)
Theorem manifest_not_mapping_is_fatal (safe_load : string -> option value)
    (repr_container : value -> string) (format_pct : nat -> nat -> string)
    (w : world) (a : args) (text : string) (chart_data : value) (s : state) :
  files w "Chart.yaml" = Some text ->
  safe_load text = Some chart_data ->
  is_dict chart_data = false ->
  no_pinned_version safe_load w
  /\ (resolve_version safe_load w s).1 = inl AttributeError
  /\ ~ version_never_fatal safe_load w s
  /\ exit_status (main safe_load repr_container format_pct w a s).1 = 1.
Proof.
  intros Hfile Hload Hdict.
  assert (Hnone : no_pinned_version safe_load w).
  { right. exists text, chart_data. split; [done|]. split; [done|].
    intros dep Hdep. destruct chart_data; try discriminate Hdict;
      by apply elem_of_nil in Hdep. }
  split; [done|].
  rewrite (resolve_version_not_mapping safe_load w text chart_data s) by done.
  rewrite (main_not_mapping_manifest safe_load repr_container format_pct w a text
             chart_data s) by done.
  split; [done|]. split; [|done].
  intros Hclaim. destruct (Hclaim Hnone) as [s' Hs'].
  rewrite (resolve_version_not_mapping safe_load w text chart_data s) in Hs' by done.
  discriminate Hs'.
Qed.

Lemma manifest_not_mapping_is_fatal_witness :
  no_pinned_version Scenario.safe_load Scenario.empty_manifest
  /\ (resolve_version Scenario.safe_load Scenario.empty_manifest start).1
     = inl AttributeError
  /\ ~ version_never_fatal Scenario.safe_load Scenario.empty_manifest start
  /\ exit_status (main Scenario.safe_load Scenario.repr_container Scenario.format_pct
                    Scenario.empty_manifest Scenario.cli start).1 = 1.
Proof.
  apply (manifest_not_mapping_is_fatal Scenario.safe_load Scenario.repr_container
           Scenario.format_pct Scenario.empty_manifest Scenario.cli "" VNone start);
    reflexivity.
Defined.

(** What the empty manifest does, and a manifest whose [dependencies] is
    null: the loop over it raises [TypeError]. *)
Example empty_manifest_run :
  main Scenario.safe_load Scenario.repr_container Scenario.format_pct
    Scenario.empty_manifest Scenario.cli start
  = (inl AttributeError, mkState [] [EvExists "Chart.yaml"; EvRead "Chart.yaml"])
  /\ (resolve_version (fun _ => Some (VDict [("dependencies", VNone)]))
        Scenario.empty_manifest start).1 = inl TypeError.
Proof. split; vm_compute; reflexivity. Qed.

(** C10. When the root of the upstream values file is not a mapping,
    extraction yields the empty list and parsing returns it without
    raising; the run then ends on an exception with status 1 and writes no
    report: past the version, that exception is the division by zero of the
    coverage, or the missing [/tmp] in the [github] format. *)
Theorem not_mapping_root_run (safe_load : string -> option value)
    (repr_container : value -> string) (format_pct : nat -> nat -> string)
    (w : world) (a : args) (text : string) (data : value) (s : state) :
  files w (path_join (kata_deploy_chart a) "values.yaml") = Some text ->
  safe_load text = Some data ->
  is_dict data = false ->
  extract_options exclude_options data "" = []
  /\ (forall kata_version s0, exists s1,
        parse_kata_deploy_values safe_load repr_container w (kata_deploy_chart a)
          kata_version (Some exclude_options) s0 = (inr [], s1))
  /\ exists e s',
       main safe_load repr_container format_pct w a s = (inl e, s')
       /\ exit_status (inl e : exn + unit) = 1
       /\ (forall p txt, EvWrite p txt ∈ trace s' -> EvWrite p txt ∈ trace s)
       /\ (forall v s1, resolve_version safe_load w s = (inr v, s1) ->
             e = ZeroDivisionError
             \/ (e = FileNotFoundError /\ tmp_mtime w = None
                 /\ output_format a = "github")).
Proof.
  intros Hfile Hload Hdict.
  assert (Hnone : extract_options exclude_options data "" = [])
    by by apply extract_options_not_mapping.
  split; [done|]. split.
  - intros kata_version s0.
    destruct (parse_no_options safe_load repr_container w (kata_deploy_chart a) text
                data kata_version exclude_options s0 Hfile Hload Hnone) as (l & Hp & _).
    eauto.
  - destruct (resolve_version_run safe_load w s) as (r & Hr & He).
    unfold main, mbind, M_bind. rewrite Hr. destruct r as [e | kata_version].
    + exists e. eexists. split; [done|].
      split; [by destruct (He e eq_refl) as [-> | [-> | ->]]|]. split; [|done].
      intros p txt Hin. cbn [trace] in Hin.
      apply (quiet_no_new_write (trace s)) in Hin; [done|].
      unfold manifest_events. by destruct (files w "Chart.yaml"); repeat constructor.
    + match goal with |- context [stages _ _ _ _ _ _ ?s0] =>
        destruct (stages_no_options safe_load repr_container format_pct w a text data
                    kata_version s0 Hfile Hload Hnone) as (e & s' & -> & He' & Hw) end.
      exists e, s'. split; [done|].
      split; [by destruct He' as [-> | (-> & _)]|]. split; [|done].
      intros p txt Hin. apply Hw in Hin. cbn [trace] in Hin.
      apply (quiet_no_new_write (trace s)) in Hin; [done|].
      unfold manifest_events. by destruct (files w "Chart.yaml"); repeat constructor.
Qed.

Lemma not_mapping_root_run_witness :
  extract_options exclude_options VNone "" = []
  /\ (forall kata_version s0, exists s1,
        parse_kata_deploy_values Scenario.safe_load Scenario.repr_container
          Scenario.empty_values (kata_deploy_chart Scenario.cli)
          kata_version (Some exclude_options) s0 = (inr [], s1))
  /\ exists e s',
       main Scenario.safe_load Scenario.repr_container Scenario.format_pct
         Scenario.empty_values Scenario.cli start = (inl e, s')
       /\ exit_status (inl e : exn + unit) = 1
       /\ (forall p txt, EvWrite p txt ∈ trace s' -> EvWrite p txt ∈ trace start)
       /\ (forall v s1,
             resolve_version Scenario.safe_load Scenario.empty_values start = (inr v, s1) ->
             e = ZeroDivisionError
             \/ (e = FileNotFoundError /\ tmp_mtime Scenario.empty_values = None
                 /\ output_format Scenario.cli = "github")).
Proof.
  apply (not_mapping_root_run Scenario.safe_load Scenario.repr_container
           Scenario.format_pct Scenario.empty_values Scenario.cli "" VNone start);
    vm_compute; reflexivity.
Defined.

(** The run on the empty values file, spelled out. *)
Example empty_values_run :
  (main Scenario.safe_load Scenario.repr_container Scenario.format_pct
     Scenario.empty_values Scenario.cli start).1 = inl ZeroDivisionError.
Proof. vm_compute. reflexivity. Qed.

(** * Further properties *)

(** ** Extraction: nothing is lost, paths are distinct *)

(** X1. Extraction loses no leaf: every entry that is not a mapping and is
    reached through kept keys is in the extracted list, under its key as
    name, with its dotted path, the name of its kind and its value. *)
Theorem extract_options_complete (exclude : list string) (data : value)
    (parent key p : string) (v : value) :
  visited exclude data parent key p v ->
  is_dict v = false ->
  new_option key p (type_name v) v ∈ extract_options exclude data parent.
Proof. intros Hv Hd. apply extract_options_spec. by exists key, p, v. Qed.

Lemma extract_options_complete_witness :
  new_option "debug" "env.debug" "bool" (VBool false)
  ∈ extract_options ["env.hostOS"] Scenario.tree "".
Proof.
  apply (extract_options_complete ["env.hostOS"] Scenario.tree "" "debug" "env.debug"
           (VBool false)); [|reflexivity].
  apply (visited_under _ _ "" "env" [("debug", VBool false); ("hostOS", VStr "ci")]).
  - left.
  - split; [reflexivity|]. by intros [[=] | []%elem_of_nil]%elem_of_cons.
  - apply (visited_entry _ _ "env" "debug" (VBool false)).
    + left.
    + split; [reflexivity|]. by intros [[=] | []%elem_of_nil]%elem_of_cons.
Defined.

Lemma append_eq_empty (a b : string) : a +:+ b = "" -> a = "" /\ b = "".
Proof. by destruct a. Qed.

Lemma current_path_prefix (parent key : string) :
  current_path parent key = path_prefix parent +:+ key.
Proof.
  unfold current_path, path_prefix. destruct (Py.truthy parent); [|done].
  by rewrite append_assoc.
Qed.

Lemma current_path_under (parent key k' : string) :
  key <> "" -> current_path (current_path parent key) k'
               = current_path parent key +:+ "." +:+ k'.
Proof.
  intros Hk. unfold current_path at 1.
  destruct (current_path parent key) as [|c cur] eqn:E; [|done].
  rewrite current_path_prefix in E. apply append_eq_empty in E as [_ E]. done.
Qed.

Lemma under_deeper (cur k p : string) : under (cur +:+ "." +:+ k) p -> under cur p.
Proof.
  intros (t & -> & Ht). exists ("." +:+ k +:+ t).
  rewrite !append_assoc. split; [done|]. right. by exists (k +:+ t).
Qed.

Lemma plain_split (k1 : string) :
  forall k2 t1 t2,
  all_chars (fun c => negb (Ascii.eqb c ".")) k1 = true ->
  all_chars (fun c => negb (Ascii.eqb c ".")) k2 = true ->
  dot_tail t1 -> dot_tail t2 ->
  k1 +:+ t1 = k2 +:+ t2 -> k1 = k2.
Proof.
  induction k1 as [|c k1 IH]; intros k2 t1 t2 H1 H2 Ht1 Ht2 Heq.
  - destruct k2 as [|c2 k2]; [done|]. simpl in H2. apply andb_true_iff in H2 as [Hc2 _].
    destruct Ht1 as [-> | [t' ->]]; [done|].
    injection Heq as <- _. done.
  - simpl in H1. apply andb_true_iff in H1 as [Hc H1].
    destruct k2 as [|c2 k2].
    + destruct Ht2 as [-> | [t' ->]]; [done|].
      injection Heq as -> _. done.
    + simpl in H2. apply andb_true_iff in H2 as [_ H2].
      injection Heq as -> Heq. f_equal. by apply (IH k2 t1 t2).
Qed.

Lemma under_siblings (parent k1 k2 p : string) :
  plain_key k1 -> plain_key k2 ->
  under (current_path parent k1) p -> under (current_path parent k2) p -> k1 = k2.
Proof.
  intros [_ H1] [_ H2] (t1 & -> & Ht1) (t2 & Heq & Ht2).
  rewrite !current_path_prefix, !append_assoc in Heq.
  apply (inj (String.app _)) in Heq. by apply (plain_split k1 k2 t1 t2).
Qed.

Lemma plain_tree_entry (items : list (string * value)) (k : string) (v : value) :
  plain_tree (VDict items) -> (k, v) ∈ items -> plain_key k /\ plain_tree v.
Proof.
  intros [_ Hall] Hin. induction items as [|[k0 v0] items IH]; [by apply elem_of_nil in Hin|].
  destruct Hall as (Hk & Hv & Hall).
  apply elem_of_cons in Hin as [[= -> ->] | Hin]; [done|]. by apply IH.
Qed.

(** The path of an entry visited in a plain mapping continues the path of
    one of the mapping's own keys. *)
Lemma visited_under_key (exclude : list string) (data : value)
    (parent key p : string) (v : value) :
  visited exclude data parent key p v ->
  plain_tree data ->
  exists items k v0,
    data = VDict items /\ (k, v0) ∈ items /\ under (current_path parent k) p.
Proof.
  induction 1 as [items parent key v Hin _ | items parent k sub key p v Hin _ Hsub IH];
    intros Hplain.
  - exists items, key, v. repeat split; [done|]. exists "". by rewrite append_empty_r; split; [|left].
  - destruct (plain_tree_entry _ _ _ Hplain Hin) as [[Hk _] Hpsub].
    destruct (IH Hpsub) as (items' & k' & v0 & [= <-] & Hin' & Hu).
    exists items, k, (VDict sub). repeat split; [done|].
    rewrite current_path_under in Hu by done. by eapply under_deeper.
Qed.

Lemma extracted_under_key (exclude : list string) (items : list (string * value))
    (parent : string) (o : ConfigOption) :
  plain_tree (VDict items) ->
  o ∈ extract_options exclude (VDict items) parent ->
  exists k, k ∈ map fst items /\ under (current_path parent k) (path o).
Proof.
  intros Hplain (key & p & v & Hv & _ & ->)%extract_options_spec.
  destruct (visited_under_key _ _ _ _ _ _ Hv Hplain) as (items' & k & v0 & [= <-] & Hin & Hu).
  exists k. split; [|done]. apply list_elem_of_In, in_map_iff. exists (k, v0).
  split; [done | by apply list_elem_of_In].
Qed.

Lemma extract_options_paths_nodup (exclude : list string) (data : value) :
  plain_tree data ->
  forall parent, NoDup (map path (extract_options exclude data parent)).
Proof.
  induction data as [| | | | | |items IH] using value_nested_ind; intros Hplain parent;
    try apply NoDup_nil_2.
  induction IH as [|[k v] items IHv _ IHitems]; [apply NoDup_nil_2|].
  assert (Hrest : plain_tree (VDict items)).
  { destruct Hplain as [Hnd (_ & _ & Hall)]. split; [|done]. by apply NoDup_cons in Hnd as [_ ?]. }
  assert (Hk : plain_key k) by (by destruct Hplain as [_ (? & _)]).
  assert (Hv : plain_tree v) by (by destruct Hplain as [_ (_ & ? & _)]).
  assert (Hfresh : k ∉ map fst items).
  { destruct Hplain as [Hnd _]. by apply NoDup_cons in Hnd as [? _]. }
  assert (Hapart : forall p, under (current_path parent k) p ->
            p ∉ map path (extract_options exclude (VDict items) parent)).
  { intros p Hu Hin. apply list_elem_of_In, in_map_iff in Hin as (o & <- & Hin).
    apply list_elem_of_In in Hin.
    destruct (extracted_under_key _ _ _ _ Hrest Hin) as (k2 & Hk2 & Hu2).
    assert (Hk2' : plain_key k2).
    { apply list_elem_of_In, in_map_iff in Hk2 as ([k3 v3] & <- & Hin3).
      apply list_elem_of_In in Hin3. by destruct (plain_tree_entry _ _ _ Hrest Hin3). }
    assert (k = k2) by by eapply under_siblings. by subst. }
  rewrite extract_options_cons.
  destruct (Py.startswith k "_"); [by apply IHitems|].
  destruct (Py.contains exclude (current_path parent k)); [by apply IHitems|].
  destruct (is_dict v) eqn:Hd.
  - rewrite map_app. apply NoDup_app. split; [by apply IHv|]. split; [|by apply IHitems].
    intros p Hin. apply Hapart.
    apply list_elem_of_In, in_map_iff in Hin as (o & <- & Hin). apply list_elem_of_In in Hin.
    destruct v as [| | | | | |sub]; try done.
    destruct (extracted_under_key _ _ _ _ Hv Hin) as (k' & _ & Hu).
    destruct Hk as [Hk _]. rewrite current_path_under in Hu by done.
    by eapply under_deeper.
  - simpl. apply NoDup_cons. split; [|by apply IHitems].
    apply Hapart. exists "". rewrite append_empty_r. by split; [|left].
Qed.

(** X2. In a tree whose mappings have distinct keys, none empty and none
    with a dot, no two extracted options share a path. *)
Theorem extract_options_paths_distinct (exclude : list string) (data : value)
    (parent : string) :
  plain_tree data -> NoDup (map path (extract_options exclude data parent)).
Proof. intros Hplain. by apply extract_options_paths_nodup. Qed.

Lemma extract_options_paths_distinct_witness :
  NoDup (map path (extract_options ["env.hostOS"] Scenario.nested "")).
Proof.
  apply extract_options_paths_distinct.
  unfold Scenario.nested, plain_tree, plain_key. cbn [map fst].
  repeat split; try discriminate; apply (bool_decide_unpack _); by vm_compute.
Defined.

(** Without the condition on keys the paths can collide: a key with a dot
    beside a nested mapping. *)
Example dotted_key_collides :
  map path (extract_options [] (VDict [("a.b", VInt 1); ("a", VDict [("b", VInt 2)])]) "")
  = ["a.b"; "a.b"].
Proof. reflexivity. Qed.

(** ** The reference document and the parsed chart *)

(** X3. Fetching the upstream README never raises and leaves the heap alone:
    whatever the network does, the caller gets a document or [None].  It
    gets a document exactly when [requests] is there and the server answers
    with status 200; a failure of the request is only printed. *)
Theorem fetch_github_readme_absorbs (repr_container : value -> string) (w : world)
    (version : value) (s : state) :
  exists r l,
    fetch_github_readme repr_container w version s
      = (inr r, mkState (heap s) (trace s ++ l))
    /\ Forall writes_nothing l
    /\ forall text,
         r = Some text <->
         has_requests w = true
         /\ http_get w (github_readme_url (str_value repr_container version))
            = inr (200, text).
Proof.
  unfold fetch_github_readme. fold (github_readme_url (str_value repr_container version)).
  destruct (has_requests w); simpl.
  - run_step.
    destruct (http_get w (github_readme_url (str_value repr_container version)))
      as [msg | [code body]]; run_step.
    + eexists None, _. rewrite <- app_assoc. split; [reflexivity|].
      split; [by repeat constructor|]. intros text. split; [done | by intros [_ [=]]].
    + destruct (code =? 200) eqn:Hcode; run_step.
      * apply Nat.eqb_eq in Hcode as ->.
        eexists (Some body), _. split; [reflexivity|].
        split; [by repeat constructor|]. intros text.
        split; [by intros [= ->] | by intros [_ [= ->]]].
      * apply Nat.eqb_neq in Hcode.
        eexists None, _. split; [reflexivity|].
        split; [by repeat constructor|]. intros text.
        split; [done | intros [_ [= -> _]]; done].
  - exists None, []. rewrite app_nil_r. split; [by destruct s|].
    split; [constructor|]. intros text. split; [done | by intros [[=] _]].
Qed.

Lemma alloc_all_run (os : list ConfigOption) :
  forall s, alloc_all os s
            = (inr (seq (length (heap s)) (length os)),
               mkState (heap s ++ os) (trace s)).
Proof.
  induction os as [|o os IH]; intros s; simpl.
  - rewrite app_nil_r. by destruct s.
  - unfold mbind, M_bind, alloc. rewrite IH. cbn [heap trace mret M_ret].
    rewrite length_app. simpl. rewrite Nat.add_1_r, <- app_assoc. done.
Qed.



Lemma resolve_description_run (content : string) (r : nat) (s : state)
    (o : ConfigOption) :
  heap s !! r = Some o ->
  resolve_description content r s
  = (inr tt,
     mkState
       match Re.search (description_pattern (path o)) content with
       | Some g => <[r := set_description (Py.strip g) o]> (heap s)
       | None => heap s
       end (trace s)).
Proof.
  intros Ho. unfold resolve_description, mbind, M_bind, deref, update. rewrite Ho.
  destruct (Re.search (description_pattern (path o)) content); [by rewrite Ho|].
  by destruct s.
Qed.


Lemma seq_valid (h os : list ConfigOption) (t : list event) :
  valid_refs (mkState (h ++ os) t) (seq (length h) (length os)).
Proof.
  unfold valid_refs. simpl. apply Forall_forall. intros r Hr.
  apply list_elem_of_In, in_seq in Hr. rewrite length_app. lia.
Qed.




(** The description found in the table of the scenario. *)
Example parse_reads_description :
  (parse_kata_deploy_values Scenario.safe_load Scenario.repr_container
     Scenario.with_readme "upstream" (VStr "3.21.0") (Some exclude_options) start).2
  = mkState
      [mkConfigOption "debug" "env.debug" "bool" (VBool false) "Enable debug logging" ∅]
      [EvExists "upstream/values.yaml"; EvRead "upstream/values.yaml";
       EvExists "upstream/README.md"; EvRead "upstream/README.md"].
Proof. vm_compute. reflexivity. Qed.

(** X5. With no README beside the upstream chart and no successful fetch
    (no [requests] module, no version to ask for, a failed request or a
    status other than 200), parsing still succeeds and the new objects are
    exactly the extracted options: every description stays empty. *)
Theorem parse_without_reference (safe_load : string -> option value)
    (repr_container : value -> string) (w : world) (chart_path text : string)
    (values kata_version : value) (exclude : list string) (s : state) :
  files w (path_join chart_path "values.yaml") = Some text ->
  safe_load text = Some values ->
  files w (path_join chart_path "README.md") = None ->
  (has_requests w = false \/ truthy_value kata_version = false
   \/ forall code body,
        http_get w (github_readme_url (str_value repr_container kata_version))
          = inr (code, body) -> code <> 200) ->
  let extracted := extract_options exclude values "" in
  exists l,
    parse_kata_deploy_values safe_load repr_container w chart_path kata_version
      (Some exclude) s
      = (inr (seq (length (heap s)) (length extracted)),
         mkState (heap s ++ extracted) (trace s ++ l))
    /\ Forall writes_nothing l
    /\ Forall (fun o => description o = "") extracted.
Proof.
  intros Hfile Hload Hreadme Hfetch extracted.
  assert (Hempty : Forall (fun o => description o = "") extracted).
  { apply Forall_forall. intros o (key & p & v & _ & _ & ->)%extract_options_spec. done. }
  unfold parse_kata_deploy_values, fetch_github_readme.
  fold (github_readme_url (str_value repr_container kata_version)).
  run_step. rewrite Hfile. cbn [negb]. run_step. rewrite Hload. cbn [fst snd].
  rewrite alloc_all_run. fold extracted. cbn [heap trace]. run_step. rewrite Hreadme.
  destruct (truthy_value kata_version) eqn:Hkv; run_step;
    [|eexists; rewrite <- !app_assoc; split; [reflexivity|]; split;
      [by repeat constructor | done]].
  destruct (has_requests w) eqn:Hreq; cbn [negb]; run_step;
    [|eexists; rewrite <- !app_assoc; split; [reflexivity|]; split;
      [by repeat constructor | done]].
  destruct (http_get w (github_readme_url (str_value repr_container kata_version)))
    as [msg | [code body]] eqn:Hget; run_step.
  - eexists; rewrite <- !app_assoc; split; [reflexivity|]; split;
      [by repeat constructor | done].
  - destruct (code =? 200)%nat eqn:Hcode; run_step.
    + apply Nat.eqb_eq in Hcode.
      destruct Hfetch as [? | [? | Hfetch]]; [done | done |].
      by destruct (Hfetch code body eq_refl).
    + eexists; rewrite <- !app_assoc; split; [reflexivity|]; split;
        [by repeat constructor | done].
Qed.

Lemma parse_without_reference_witness :
  let extracted := extract_options exclude_options Scenario.tree "" in
  exists l,
    parse_kata_deploy_values Scenario.safe_load Scenario.repr_container
      Scenario.commented "upstream" (VStr "unknown") (Some exclude_options) start
      = (inr (seq (length (heap start)) (length extracted)),
         mkState (heap start ++ extracted) (trace start ++ l))
    /\ Forall writes_nothing l
    /\ Forall (fun o => description o = "") extracted.
Proof.
  apply (parse_without_reference Scenario.safe_load Scenario.repr_container
           Scenario.commented "upstream" "tree" Scenario.tree (VStr "unknown")
           exclude_options start); try reflexivity.
  left. reflexivity.
Defined.

(** ** The version label *)

Lemma find_version_pinned (before after : list value) (dep : list (string * value))
    (s : state) :
  (forall d, d ∈ before -> is_dict d = true /\ ~ names_kata_deploy d) ->
  dict_get dep "name" VNone = VStr "kata-deploy" ->
  find_version (before ++ VDict dep :: after) s
  = (inr (dict_get dep "version" (VStr "unknown")), s).
Proof.
  intros Hbefore Hname. induction before as [|d before IH]; simpl.
  - run_step. rewrite Hname. done.
  - destruct (Hbefore d ltac:(left)) as [Hd Hn].
    destruct d as [| | | | | |items]; try done. run_step.
    destruct (eq_str (dict_get items "name" VNone) "kata-deploy") eqn:He.
    + destruct Hn. exists items. split; [done|]. by apply eq_str_spec.
    + apply IH. intros d' Hin. apply Hbefore. by right.
Qed.

(** X6. When the manifest is a mapping whose dependency list holds an entry
    named kata-deploy, all entries before it being mappings with another
    name, the version label is the [version] of that first entry, or
    [unknown] when the entry has none; later entries are not looked at. *)
Theorem resolve_version_pinned (safe_load : string -> option value) (w : world)
    (text : string) (items dep : list (string * value)) (before after : list value)
    (s : state) :
  files w "Chart.yaml" = Some text ->
  safe_load text = Some (VDict items) ->
  dict_get items "dependencies" (VList []) = VList (before ++ VDict dep :: after) ->
  (forall d, d ∈ before -> is_dict d = true /\ ~ names_kata_deploy d) ->
  dict_get dep "name" VNone = VStr "kata-deploy" ->
  resolve_version safe_load w s
  = (inr (dict_get dep "version" (VStr "unknown")),
     mkState (heap s) (trace s ++ [EvExists "Chart.yaml"; EvRead "Chart.yaml"])).
Proof.
  intros Hfile Hload Hdeps Hbefore Hname.
  unfold resolve_version. run_step. rewrite Hfile. cbn [fst snd]. rewrite Hload.
  cbn [fst snd]. rewrite Hdeps. cbn [fst snd].
  rewrite find_version_pinned by done. cbn [heap trace]. by rewrite <- app_assoc.
Qed.

Lemma resolve_version_pinned_witness :
  resolve_version Scenario.safe_load Scenario.no_values start
  = (inr (VStr "3.21.0"),
     mkState (heap start) (trace start ++ [EvExists "Chart.yaml"; EvRead "Chart.yaml"])).
Proof.
  apply (resolve_version_pinned Scenario.safe_load Scenario.no_values "pinned"
           [("name", VStr "confidential-containers");
            ("dependencies",
             VList [VDict [("name", VStr "kata-deploy"); ("version", VStr "3.21.0")]])]
           [("name", VStr "kata-deploy"); ("version", VStr "3.21.0")] [] [] start);
    try reflexivity.
  intros d Hd. by apply elem_of_nil in Hd.
Defined.

(** ** The documentation check: what it touches *)

Lemma probe_events_cons (w : world) (p : string) (ps : list string) :
  probe_events w (p :: ps) = probe_events w [p] ++ probe_events w ps.
Proof. unfold probe_events. cbn [flat_map]. by rewrite app_nil_r. Qed.

Lemma read_all_trace (w : world) (ps : list string) :
  forall all_content s,
  read_all w all_content ps s
  = (inr (fold_left (with_file w) ps all_content),
     mkState (heap s) (trace s ++ probe_events w ps)).
Proof.
  induction ps as [|p ps IH]; intros all_content s.
  - cbn [read_all fold_left]. unfold probe_events. cbn [flat_map].
    rewrite app_nil_r. by destruct s.
  - cbn [read_all fold_left]. unfold mbind, M_bind.
    rewrite read_into_run, IH. cbn [heap trace].
    by rewrite (probe_events_cons w p ps), <- app_assoc.
Qed.



(** X8. All the check does to its surroundings is to look for the values
    file and then for each documentation file, in the order given, reading
    the ones that exist: it prints nothing, writes nothing, and a missing
    file is passed over. *)
Theorem check_documentation_probes (w : world) (options : list nat)
    (our_values : string) (doc_files : list string) (alias : string) (s : state) :
  valid_refs s options ->
  trace (check_documentation w options our_values doc_files alias s).2
  = trace s ++ probe_events w (our_values :: doc_files).
Proof.
  intros Hvalid. unfold check_documentation, mbind, M_bind.
  rewrite read_into_run, read_all_trace.
  match goal with |- context [classify ?c alias options [] [] ?s0] =>
    destruct (classify_run c alias options [] [] s0) as (s' & -> & Htr & _) end.
  { unfold valid_refs in *. by simpl. }
  cbn [snd]. rewrite Htr. cbn [trace].
  by rewrite (probe_events_cons w our_values doc_files), <- !app_assoc.
Qed.

Lemma check_documentation_probes_witness :
  trace (check_documentation Scenario.commented [0] "values.yaml" ["README.md"]
           subchart_alias Scenario.one_option).2
  = trace Scenario.one_option
    ++ probe_events Scenario.commented ("values.yaml" :: ["README.md"]).
Proof.
  apply check_documentation_probes. constructor; [vm_compute; lia | constructor].
Defined.

(** ** The documentation check: what decides *)

Lemma mention_empty (p : string) : ~ mention p "".
Proof.
  intros [a m t b H _ _ | a t m b H _ _ | a t b H _ | a f m t b H Hf _ _
         | a m1 t m2 b H _ _ _]; symmetry in H;
    apply append_eq_empty in H as [_ H].
  - discriminate H.
  - do 2 apply append_eq_empty in H as [_ H]. discriminate H.
  - discriminate H.
  - apply append_eq_empty in H as [-> _]. discriminate Hf.
  - discriminate H.
Qed.

Lemma first_hit_empty (patterns : list string) : first_hit patterns "" = None.
Proof.
  induction patterns as [|p ps IH]; [done|]. cbn [first_hit].
  destruct (any_search (search_patterns p) "") eqn:E; [|done].
  apply any_search_mention in E. by destruct (mention_empty p).
Qed.

Lemma corpus_missing (w : world) (ps : list string) (c : string) :
  (forall p, p ∈ ps -> files w (Pathlib.fspath p) = None) ->
  fold_left (with_file w) ps c = c.
Proof.
  revert c. induction ps as [|p ps IH]; intros c Hps; [done|]. simpl.
  unfold with_file at 2. rewrite (Hps p) by left. apply IH. intros q Hq. apply Hps. by right.
Qed.

Lemma filter_none {A : Type} (P : A -> Prop) `{forall x, Decision (P x)} (l : list A) :
  (forall x, x ∈ l -> ~ P x) -> filter P l = [].
Proof.
  induction l as [|x l IH]; intros Hl; [done|].
  rewrite filter_cons_False by (apply Hl; left). apply IH. intros y Hy. apply Hl. by right.
Qed.

Lemma filter_all {A : Type} (P : A -> Prop) `{forall x, Decision (P x)} (l : list A) :
  (forall x, x ∈ l -> P x) -> filter P l = l.
Proof.
  induction l as [|x l IH]; intros Hl; [done|].
  rewrite filter_cons_True by (apply Hl; left). f_equal. apply IH.
  intros y Hy. apply Hl. by right.
Qed.

(** X9. When neither the values file nor any documentation file exists
    (under the name its path gives it), the check does not fail: every option comes back undocumented, in the order
    given, and no object is changed. *)
Theorem check_documentation_without_files (w : world) (options : list nat)
    (our_values : string) (doc_files : list string) (alias : string) (s : state) :
  valid_refs s options ->
  (forall p, p ∈ our_values :: doc_files -> files w (Pathlib.fspath p) = None) ->
  exists s',
    check_documentation w options our_values doc_files alias s
      = (inr ([], options), s')
    /\ heap s' = heap s.
Proof.
  intros Hvalid Hmissing.
  pose proof (check_documentation_run w options our_values doc_files alias s Hvalid)
    as Hrun'. cbv zeta in Hrun'. destruct Hrun' as (s' & Hrun & Hlen & Hheap).
  assert (Hcorpus : corpus w our_values doc_files = "").
  { unfold corpus. rewrite corpus_missing by (intros p Hp; apply Hmissing; by right).
    unfold with_file. by rewrite (Hmissing our_values) by left. }
  rewrite Hcorpus in *.
  assert (Hno : forall r, ~ hit "" alias (heap s) r).
  { intros r. unfold hit. destruct (heap s !! r) as [o|].
    - change (~ is_Some (first_hit (patterns_of alias o) "")).
      rewrite first_hit_empty. by intros [? ?].
    - by intros [? ?]. }
  exists s'. split.
  - rewrite Hrun, (filter_none (hit "" alias (heap s)) options)
      by (intros r _; apply Hno).
    by rewrite (filter_all (fun r => ~ hit "" alias (heap s) r) options)
      by (intros r _; apply Hno).
  - apply list_eq. intros i. destruct (heap s !! i) as [o|] eqn:Ho.
    + rewrite (Hheap i o Ho). f_equal. unfold mark. rewrite first_hit_empty.
      by destruct (decide (i ∈ options)).
    + apply lookup_ge_None. rewrite Hlen. by apply lookup_ge_None.
Qed.

Lemma check_documentation_without_files_witness :
  exists s',
    check_documentation Scenario.no_options [0] "values.yaml" ["README.md"]
      subchart_alias Scenario.one_option = (inr ([], [0]), s')
    /\ heap s' = heap Scenario.one_option.
Proof.
  apply check_documentation_without_files.
  - constructor; [vm_compute; lia | constructor].
  - intros p [-> | [-> | []%elem_of_nil]%elem_of_cons]%elem_of_cons; reflexivity.
Defined.

Lemma with_file_app (w : world) (c p : string) :
  with_file w c p = c +:+ with_file w "" p.
Proof.
  unfold with_file. destruct (files w (Pathlib.fspath p)); [done|].
  by rewrite append_empty_r.
Qed.

Lemma fold_with_file_app (w : world) (ps : list string) :
  forall c, fold_left (with_file w) ps c = c +:+ fold_left (with_file w) ps "".
Proof.
  induction ps as [|p ps IH]; intros c; simpl; [by rewrite append_empty_r|].
  rewrite IH, (IH (with_file w "" p)), (with_file_app w c p). by rewrite append_assoc.
Qed.

(** The corpus of more files continues the corpus of fewer. *)
Lemma corpus_app (w : world) (our_values : string) (doc_files more : list string) :
  corpus w our_values (doc_files ++ more)
  = corpus w our_values doc_files +:+ fold_left (with_file w) more "".
Proof. unfold corpus. by rewrite fold_left_app, fold_with_file_app. Qed.

Lemma mention_app_r (p all_content x : string) :
  mention p all_content -> mention p (all_content +:+ x).
Proof.
  intros [a m t b -> Hm Ht | a t m b -> Hm Ht | a t b -> Ht
         | a f m t b -> Hf Hm Ht | a m1 t m2 b -> Hm1 Hm2 Ht].
  - apply (in_comment _ _ a m t (b +:+ x)); [|done..]. by rewrite !append_assoc.
  - apply (as_key _ _ a t m (b +:+ x)); [|done..]. by rewrite !append_assoc.
  - apply (in_backticks _ _ a t (b +:+ x)); [|done]. by rewrite !append_assoc.
  - apply (after_set _ _ a f m t (b +:+ x)); [|done..]. by rewrite !append_assoc.
  - apply (in_table _ _ a m1 t m2 (b +:+ x)); [|done..]. by rewrite !append_assoc.
Qed.

(** X10. Giving the check more documentation files after the ones it had
    never loses a documented option: what was documented stays documented,
    and what is undocumented with the longer list was so with the shorter. *)
Theorem check_documentation_monotone (w : world) (options : list nat)
    (our_values : string) (doc_files more : list string) (alias : string) (s : state) :
  valid_refs s options ->
  exists d1 u1 s1 d2 u2 s2,
    check_documentation w options our_values doc_files alias s = (inr (d1, u1), s1)
    /\ check_documentation w options our_values (doc_files ++ more) alias s
       = (inr (d2, u2), s2)
    /\ (forall r, r ∈ d1 -> r ∈ d2)
    /\ (forall r, r ∈ u2 -> r ∈ u1).
Proof.
  intros Hvalid.
  pose proof (check_documentation_run w options our_values doc_files alias s Hvalid)
    as H1. cbv zeta in H1. destruct H1 as (s1 & H1 & _).
  pose proof (check_documentation_run w options our_values (doc_files ++ more) alias s
                Hvalid) as H2. cbv zeta in H2. destruct H2 as (s2 & H2 & _).
  assert (Hmono : forall r, hit (corpus w our_values doc_files) alias (heap s) r ->
                    hit (corpus w our_values (doc_files ++ more)) alias (heap s) r).
  { intros r Hhit. destruct (heap s !! r) as [o|] eqn:Ho.
    - destruct (proj1 (hit_spec _ alias (heap s) r o Ho) Hhit) as (c & Hc & Hm).
      apply (proj2 (hit_spec _ alias (heap s) r o Ho)). exists c. split; [done|].
      rewrite corpus_app. by apply mention_app_r.
    - unfold hit in Hhit. rewrite Ho in Hhit. by destruct Hhit. }
  eexists _, _, s1, _, _, s2. split; [exact H1|]. split; [exact H2|]. split.
  - intros r [Hhit Hin]%list_elem_of_filter. apply list_elem_of_filter. auto.
  - intros r [Hno Hin]%list_elem_of_filter. apply list_elem_of_filter. auto.
Qed.

Lemma check_documentation_monotone_witness :
  exists d1 u1 s1 d2 u2 s2,
    check_documentation Scenario.commented [0] "values.yaml" [] subchart_alias
      Scenario.one_option = (inr (d1, u1), s1)
    /\ check_documentation Scenario.commented [0] "values.yaml" ([] ++ ["README.md"])
         subchart_alias Scenario.one_option = (inr (d2, u2), s2)
    /\ (forall r, r ∈ d1 -> r ∈ d2)
    /\ (forall r, r ∈ u2 -> r ∈ u1).
Proof.
  apply check_documentation_monotone. constructor; [vm_compute; lia | constructor].
Defined.

(** ** The documentation check: letter case *)

Lemma lower_idemp (c : ascii) : Py.lower (Py.lower c) = Py.lower c.
Proof. by destruct c as [[] [] [] [] [] [] [] []]. Qed.

Lemma casefold_idemp (s : string) : casefold (casefold s) = casefold s.
Proof. induction s as [|c s IH]; [done|]. simpl. by rewrite lower_idemp, IH. Qed.

Lemma case_blind_char (a : ascii) : case_blind (Re.CChar a).
Proof. intros c. simpl. by rewrite lower_idemp. Qed.

Lemma case_blind_any : case_blind Re.CAny.
Proof. intros c. by destruct c as [[] [] [] [] [] [] [] []]. Qed.

Lemma case_blind_space : case_blind Re.CSpace.
Proof. intros c. by destruct c as [[] [] [] [] [] [] [] []]. Qed.

Lemma case_blind_escape (p : string) : Forall case_blind_node (Re.escape p).
Proof. induction p as [|c p IH]; constructor; [apply case_blind_char | done]. Qed.

Lemma case_blind_search_patterns (p : string) :
  Forall (Forall case_blind_node) (search_patterns p).
Proof.
  unfold search_patterns.
  repeat (apply Forall_cons; split);
    repeat first
      [ apply Forall_nil_2 | apply case_blind_escape
      | apply Forall_app; split
      | apply Forall_cons; split
      | apply case_blind_char | apply case_blind_any | apply case_blind_space ].
Qed.

(** On a pattern that is blind to case, the matcher reads the lower-cased
    text as it reads the text. *)
Lemma match_here_casefold (r : Re.regex) :
  Forall case_blind_node r ->
  forall s,
  Re.match_here r (casefold s)
  = match Re.match_here r s with
    | Some (g, rest) => Some (casefold g, casefold rest)
    | None => None
    end.
Proof.
  induction r as [|n r IH]; intros Hblind s; [done|].
  apply Forall_cons in Hblind as [Hn Hblind]. specialize (IH Hblind).
  destruct n as [x|x|x|x]; simpl in Hn.
  - destruct s as [|c s]; [done|]. simpl. rewrite Hn.
    destruct (Re.accepts x c); [apply IH | done].
  - induction s as [|c s IHs].
    + rewrite !match_here_star. apply (IH "").
    + change (casefold (String c s)) with (String (Py.lower c) (casefold s)).
      rewrite (match_here_star x r (String _ (casefold s))),
        (match_here_star x r (String c s)), Hn.
      change (String (Py.lower c) (casefold s)) with (casefold (String c s)).
      destruct (Re.accepts x c); [|apply IH].
      rewrite IHs. destruct (Re.match_here (Re.Star x :: r) s) as [[g rest]|]; [done|].
      apply IH.
  - destruct s as [|c s]; [apply (IH "")|].
    change (casefold (String c s)) with (String (Py.lower c) (casefold s)).
    cbn [Re.match_here]. rewrite Hn.
    change (String (Py.lower c) (casefold s)) with (casefold (String c s)).
    destruct (Re.accepts x c); [|apply IH].
    rewrite (IH s). destruct (Re.match_here r s) as [[g rest]|]; [done | apply IH].
  - induction s as [|c s IHs]; [done|].
    change (casefold (String c s)) with (String (Py.lower c) (casefold s)).
    rewrite (match_here_group x r (String _ (casefold s))),
      (match_here_group x r (String c s)), Hn.
    destruct (Re.accepts x c); [|done].
    rewrite IHs. destruct (Re.match_here (Re.Group x :: r) s) as [[g rest]|]; [done|].
    rewrite (IH s). by destruct (Re.match_here r s) as [[g rest]|].
Qed.

Lemma search_unfold (r : Re.regex) (s : string) :
  Re.search r s
  = match Re.match_here r s with
    | Some (g, _) => Some g
    | None => match s with String _ s' => Re.search r s' | EmptyString => None end
    end.
Proof. by destruct s. Qed.

Lemma search_casefold (r : Re.regex) (s : string) :
  Forall case_blind_node r ->
  Re.search r (casefold s)
  = match Re.search r s with Some g => Some (casefold g) | None => None end.
Proof.
  intros Hblind. induction s as [|c s IH].
  - rewrite (search_unfold r (casefold "")), (search_unfold r ""),
      (match_here_casefold r Hblind).
    by destruct (Re.match_here r "") as [[g rest]|].
  - rewrite (search_unfold r (casefold (String c s))), (search_unfold r (String c s)),
      (match_here_casefold r Hblind).
    destruct (Re.match_here r (String c s)) as [[g rest]|]; [done|].
    cbn [casefold]. apply IH.
Qed.

Lemma any_search_casefold (rs : list Re.regex) (s : string) :
  Forall (Forall case_blind_node) rs ->
  any_search rs (casefold s) = any_search rs s.
Proof.
  induction rs as [|r rs IH]; intros Hblind; [done|].
  apply Forall_cons in Hblind as [Hr Hblind]. simpl.
  rewrite (search_casefold r s Hr), IH by done.
  by destruct (Re.search r s).
Qed.

Lemma first_hit_casefold (patterns : list string) (s : string) :
  first_hit patterns (casefold s) = first_hit patterns s.
Proof.
  induction patterns as [|p ps IH]; [done|]. cbn [first_hit].
  by rewrite any_search_casefold, IH by apply case_blind_search_patterns.
Qed.

Lemma mention_same_pattern (p p' all_content : string) :
  same_text p p' -> mention p all_content -> mention p' all_content.
Proof.
  unfold same_text. intros Hp
    [a m t b -> Hm Ht | a t m b -> Hm Ht | a t b -> Ht
    | a f m t b -> Hf Hm Ht | a m1 t m2 b -> Hm1 Hm2 Ht].
  - eapply in_comment; [done | done |]. unfold same_text in *. congruence.
  - eapply as_key; [done | done |]. unfold same_text in *. congruence.
  - eapply in_backticks; [done |]. unfold same_text in *. congruence.
  - eapply after_set; [done | done | done |]. unfold same_text in *. congruence.
  - eapply in_table; [done | done | done |]. unfold same_text in *. congruence.
Qed.

(** X11. Letter case decides nothing on 7-bit text.  Two corpora that
    differ in case only give every list of candidates the same verdict,
    with the same deciding candidate; and two candidates that differ in
    case only are mentioned by the same corpora. *)
Theorem first_hit_ignores_case (patterns : list string) (c c' p p' : string) :
  Forall seven_bit (c :: c' :: p :: p' :: patterns) ->
  same_text c c' ->
  same_text p p' ->
  first_hit patterns c = first_hit patterns c'
  /\ any_search (search_patterns p) c = any_search (search_patterns p') c'.
Proof.
  unfold same_text. intros _ Hc Hp. split.
  - by rewrite <- (first_hit_casefold patterns c), Hc, first_hit_casefold.
  - rewrite <- (any_search_casefold _ c), Hc, any_search_casefold
      by apply case_blind_search_patterns.
    apply eq_true_iff_eq. rewrite !any_search_mention.
    split; apply mention_same_pattern; by unfold same_text.
Qed.

Lemma first_hit_ignores_case_witness :
  first_hit ["kata-as-coco-runtime.env.debug"; "env.debug"; "debug"]
    "# KATA-AS-COCO-RUNTIME.ENV.DEBUG enables verbose logs"
  = first_hit ["kata-as-coco-runtime.env.debug"; "env.debug"; "debug"]
      "# kata-as-coco-runtime.env.debug enables verbose logs"
  /\ any_search (search_patterns "imagePullPolicy")
       "# KATA-AS-COCO-RUNTIME.ENV.DEBUG enables verbose logs"
     = any_search (search_patterns "imagepullpolicy")
         "# kata-as-coco-runtime.env.debug enables verbose logs".
Proof.
  apply first_hit_ignores_case; [|reflexivity..].
  repeat constructor.
Defined.

(** ** The report *)

Lemma deref_all_run (rs : list nat) (s : state) :
  valid_refs s rs ->
  exists os, deref_all rs s = (inr os, s) /\ objects s rs os.
Proof.
  induction rs as [|r rs IH]; intros Hvalid.
  - exists []. split; [done | constructor].
  - apply Forall_cons in Hvalid as [Hr Hvalid].
    apply lookup_lt_is_Some_2 in Hr as [o Ho]. destruct (IH Hvalid) as (os & Hrun & Hos).
    exists (o :: os). split; [|by constructor].
    cbn [deref_all]. unfold mbind, M_bind, deref. by rewrite Ho, Hrun.
Qed.

Lemma objects_length (s : state) (rs : list nat) (os : list ConfigOption) :
  objects s rs os -> length os = length rs.
Proof. intros H. symmetry. by eapply Forall2_length. Qed.

Lemma objects_nonempty (s : state) (rs : list nat) (os : list ConfigOption) :
  objects s rs os -> nonempty os = nonempty rs.
Proof. by intros []. Qed.

(** What [generate_report] returns on a partition that is not empty, in
    terms of the objects behind the references. *)
Lemma generate_report_run (repr_container : value -> string)
    (format_pct : nat -> nat -> string) (w : world) (kata_version : value)
    (documented undocumented : list nat) (ds us : list ConfigOption)
    (fmt alias : string) (s : state) :
  objects s documented ds -> objects s undocumented us ->
  length documented + length undocumented <> 0 ->
  generate_report repr_container format_pct w kata_version documented undocumented
    fmt alias s
  = if String.eqb fmt "github" then
      match tmp_mtime w with
      | Some mtime =>
          (inr (render_github repr_container format_pct kata_version mtime ds us alias),
           mkState (heap s) (trace s ++ [EvStat "/tmp"]))
      | None => (inl FileNotFoundError, mkState (heap s) (trace s ++ [EvStat "/tmp"]))
      end
    else (inr (render_text repr_container format_pct kata_version ds us), s).
Proof.
  intros Hds Hus Hsome.
  assert (Hvd : forall t, deref_all documented (mkState (heap s) t)
                          = (inr ds, mkState (heap s) t)).
  { intros t. clear - Hds. induction Hds as [|r o rs os Ho _ IH]; [done|].
    cbn [deref_all]. unfold mbind, M_bind, deref. cbn [heap]. by rewrite Ho, IH. }
  assert (Hvu : forall t, deref_all undocumented (mkState (heap s) t)
                          = (inr us, mkState (heap s) t)).
  { intros t. clear - Hus. induction Hus as [|r o rs os Ho _ IH]; [done|].
    cbn [deref_all]. unfold mbind, M_bind, deref. cbn [heap]. by rewrite Ho, IH. }
  unfold generate_report, coverage, render_github, render_text.
  rewrite (objects_length _ _ _ Hds), (objects_length _ _ _ Hus),
    (objects_nonempty _ _ _ Hds), (objects_nonempty _ _ _ Hus).
  apply Nat.eqb_neq in Hsome.
  destruct (String.eqb fmt "github").
  - run_step. destruct (tmp_mtime w) as [mtime|]; [|done]. run_step. rewrite Hsome.
    cbn [fst snd heap trace].
    destruct (nonempty undocumented); destruct (nonempty documented);
      cbn [fst snd]; rewrite ?Hvu; cbn [fst snd]; rewrite ?Hvd; done.
  - run_step. rewrite Hsome. cbn [fst snd].
    destruct (nonempty undocumented); [|done].
    replace s with (mkState (heap s) (trace s)) at 1 by by destruct s.
    rewrite Hvu. by destruct s.
Qed.

(** Rendering a partition that is not empty. *)
Lemma generate_report_some (repr_container : value -> string)
    (format_pct : nat -> nat -> string) (w : world) (kata_version : value)
    (documented undocumented : list nat) (fmt alias : string) (s : state) :
  valid_refs s documented -> valid_refs s undocumented ->
  length documented + length undocumented <> 0 ->
  (fmt = "github" -> is_Some (tmp_mtime w)) ->
  exists report,
    generate_report repr_container format_pct w kata_version documented undocumented
      fmt alias s
    = (inr report,
       mkState (heap s)
         (trace s ++ if String.eqb fmt "github" then [EvStat "/tmp"] else [])).
Proof.
  intros Hd Hu Hsome Htmp.
  destruct (deref_all_run documented s Hd) as (ds & _ & Hds).
  destruct (deref_all_run undocumented s Hu) as (us & _ & Hus).
  rewrite (generate_report_run _ _ _ _ _ _ ds us _ _ _ Hds Hus Hsome).
  destruct (String.eqb fmt "github") eqn:Hfmt.
  - apply String.eqb_eq in Hfmt. destruct (Htmp Hfmt) as [mtime ->]. eauto.
  - rewrite app_nil_r. eexists. by destruct s.
Qed.

(** X12. For a partition that is not empty, over references that name
    objects, the plain report is always returned and the [github] report is
    returned whenever [/tmp] can be examined.  Rendering reads the objects
    without changing the heap; the only thing it does to its surroundings
    is that one look at [/tmp], in the [github] format. *)
Theorem generate_report_returns (repr_container : value -> string)
    (format_pct : nat -> nat -> string) (w : world) (kata_version : value)
    (documented undocumented : list nat) (fmt alias : string) (s : state) :
  valid_refs s documented -> valid_refs s undocumented ->
  length documented + length undocumented <> 0 ->
  (fmt = "github" -> is_Some (tmp_mtime w)) ->
  exists report,
    generate_report repr_container format_pct w kata_version documented undocumented
      fmt alias s
    = (inr report,
       mkState (heap s)
         (trace s ++ if String.eqb fmt "github" then [EvStat "/tmp"] else [])).
Proof. apply generate_report_some. Qed.

Lemma generate_report_returns_witness :
  exists report,
    generate_report Scenario.repr_container Scenario.format_pct Scenario.commented
      (VStr "unknown") [0] [] "github" subchart_alias Scenario.one_option
    = (inr report,
       mkState (heap Scenario.one_option)
         (trace Scenario.one_option
          ++ if String.eqb "github" "github" then [EvStat "/tmp"] else [])).
Proof.
  apply generate_report_returns.
  - constructor; [vm_compute; lia | constructor].
  - constructor.
  - vm_compute. lia.
  - intros _. vm_compute. eauto.
Defined.






Lemma insert_sorted_perm {A : Type} (key : A -> string) (x : A) (xs : list A) :
  Py.insert_sorted key x xs ≡ₚ x :: xs.
Proof.
  induction xs as [|y xs IH]; [done|]. simpl.
  destruct (String.leb (key x) (key y)); [done|].
  rewrite IH. apply Permutation_swap.
Qed.

Lemma sorted_perm {A : Type} (key : A -> string) (xs : list A) :
  Py.sorted key xs ≡ₚ xs.
Proof.
  induction xs as [|x xs IH]; [done|]. simpl.
  rewrite insert_sorted_perm. by constructor.
Qed.

Lemma insert_sorted_sorted {A : Type} (key : A -> string) (x : A) (xs : list A) :
  Sorted (fun a b => String.leb (key a) (key b) = true) xs ->
  Sorted (fun a b => String.leb (key a) (key b) = true) (Py.insert_sorted key x xs).
Proof.
  induction 1 as [|y xs Hs IH Hhd]; simpl; [by repeat constructor|].
  destruct (String.leb (key x) (key y)) eqn:Hle.
  - constructor; [by constructor | by constructor].
  - assert (Hyx : String.leb (key y) (key x) = true).
    { destruct (String.leb_total (key x) (key y)); congruence. }
    constructor; [done|].
    destruct Hhd as [|z zs Hyz]; simpl; [by constructor|].
    destruct (String.leb (key x) (key z)); by constructor.
Qed.

Lemma sorted_sorted {A : Type} (key : A -> string) (xs : list A) :
  Sorted (fun a b => String.leb (key a) (key b) = true) (Py.sorted key xs).
Proof.
  induction xs as [|x xs IH]; simpl; [constructor | by apply insert_sorted_sorted].
Qed.


Lemma generate_report_needs_options (repr_container : value -> string)
    (format_pct : nat -> nat -> string) (w : world) (kata_version : value)
    (documented undocumented : list nat) (fmt alias report : string) (s s' : state) :
  generate_report repr_container format_pct w kata_version documented undocumented
    fmt alias s = (inr report, s') ->
  length documented + length undocumented <> 0.
Proof.
  intros Hrun Hzero.
  destruct documented; [|done]. destruct undocumented; [|done].
  destruct (generate_report_empty repr_container format_pct w kata_version fmt alias s)
    as (e & s0 & He & _). congruence.
Qed.



Lemma block_inside (s h rows a d : string) :
  (s +:+ h +:+ rows +:+ a) +:+ d = (s +:+ h) +:+ rows +:+ (a +:+ d).
Proof. by rewrite !append_assoc. Qed.

Lemma block_before (s h rows a : string) :
  s +:+ h +:+ rows +:+ a = (s +:+ h) +:+ rows +:+ a.
Proof. by rewrite !append_assoc. Qed.

Lemma block_last (r m n d n' rows : string) :
  r +:+ m +:+ n +:+ d +:+ n' +:+ rows = (r +:+ m +:+ n +:+ d +:+ n') +:+ rows +:+ "".
Proof. by rewrite !append_assoc, append_empty_r. Qed.

(** X14. The undocumented options of a returned report stand in one block,
    each exactly once, in ascending order of their paths. *)
Theorem generate_report_orders_options (repr_container : value -> string)
    (format_pct : nat -> nat -> string) (w : world) (kata_version : value)
    (documented undocumented : list nat) (fmt alias report : string) (s s' : state) :
  valid_refs s documented -> valid_refs s undocumented ->
  generate_report repr_container format_pct w kata_version documented undocumented
    fmt alias s = (inr report, s') ->
  exists us listed a b,
    objects s undocumented us
    /\ report
       = a +:+ concat_map (if String.eqb fmt "github"
                           then github_row repr_container alias
                           else text_item repr_container) listed +:+ b
    /\ listed ≡ₚ us
    /\ Sorted path_le listed.
Proof.
  intros Hd Hu Hrun.
  pose proof (generate_report_needs_options _ _ _ _ _ _ _ _ _ _ _ Hrun) as Hsome.
  destruct (deref_all_run documented s Hd) as (ds & _ & Hds).
  destruct (deref_all_run undocumented s Hu) as (us & _ & Hus).
  rewrite (generate_report_run _ _ _ _ _ _ ds us _ _ _ Hds Hus Hsome) in Hrun.
  exists us.
  destruct (nonempty us) eqn:Hne.
  - exists (Py.sorted path us).
    assert (Hsorted : Py.sorted path us ≡ₚ us /\ Sorted path_le (Py.sorted path us))
      by (split; [apply sorted_perm | apply sorted_sorted]).
    destruct (String.eqb fmt "github").
    + destruct (tmp_mtime w) as [mtime|]; [|done]. injection Hrun as <- _.
      unfold render_github. cbv zeta. rewrite Hne. destruct (nonempty ds).
      * eexists _, _. split; [done|]. split; [|done]. apply block_inside.
      * eexists _, _. split; [done|]. split; [|done]. apply block_before.
    + injection Hrun as <- _. unfold render_text. cbv zeta. rewrite Hne.
      eexists _, _. split; [done|]. split; [|done]. apply block_last.
  - destruct us; [|done]. exists [], report, "".
    split; [done|]. split; [|split; [done | constructor]].
    destruct (String.eqb fmt "github"); simpl; by rewrite append_empty_r.
Qed.

Lemma generate_report_orders_options_witness :
  exists report s',
    generate_report Scenario.repr_container Scenario.format_pct Scenario.commented
      (VStr "unknown") [] [0] "text" subchart_alias Scenario.one_option
    = (inr report, s')
    /\ exists us listed a b,
         objects Scenario.one_option [0] us
         /\ report
            = a +:+ concat_map (if String.eqb "text" "github"
                                then github_row Scenario.repr_container subchart_alias
                                else text_item Scenario.repr_container) listed +:+ b
         /\ listed ≡ₚ us
         /\ Sorted path_le listed.
Proof.
  eexists _, _. split; [vm_compute; reflexivity|].
  eapply (generate_report_orders_options Scenario.repr_container Scenario.format_pct
            Scenario.commented (VStr "unknown") [] [0] "text" subchart_alias).
  - constructor.
  - constructor; [vm_compute; lia | constructor].
  - vm_compute. reflexivity.
Defined.

(** ** The coordinator: status and files *)


Lemma quiet_ret {A : Type} (x : A) : quiet (mret x : M A).
Proof. intros s. exists []. by rewrite app_nil_r. Qed.

Lemma quiet_raise {A : Type} (e : exn) : quiet (raise e : M A).
Proof. intros s. exists []. by rewrite app_nil_r. Qed.

Lemma quiet_emit (ev : event) : writes_nothing ev -> quiet (emit ev).
Proof. intros Hev s. exists [ev]. split; [done | by constructor]. Qed.

Lemma quiet_alloc (o : ConfigOption) : quiet (alloc o).
Proof. intros s. exists []. by rewrite app_nil_r. Qed.

Lemma quiet_deref (r : nat) : quiet (deref r).
Proof. intros s. exists []. rewrite app_nil_r. unfold deref. by destruct (heap s !! r). Qed.

Lemma quiet_update (r : nat) (f : ConfigOption -> ConfigOption) : quiet (update r f).
Proof. intros s. exists []. rewrite app_nil_r. unfold update. by destruct (heap s !! r). Qed.

Lemma quiet_bind {A B : Type} (m : M A) (k : A -> M B) :
  quiet m -> (forall x, quiet (k x)) -> quiet (m ≫= k).
Proof.
  intros Hm Hk s. unfold mbind, M_bind. destruct (Hm s) as (l1 & H1 & Hq1).
  destruct (m s) as [[e | x] s1]; [by exists l1|].
  destruct (Hk x s1) as (l2 & H2 & Hq2). exists (l1 ++ l2).
  split; [|by apply Forall_app]. simpl in H1. by rewrite H2, H1, app_assoc.
Qed.

Ltac quiet_tac :=
  repeat first
    [ apply quiet_ret | apply quiet_raise | apply quiet_alloc | apply quiet_deref
    | apply quiet_update | apply quiet_emit; exact I
    | apply quiet_bind; [|intros ?]
    | match goal with
      | |- quiet (if ?b then _ else _) => destruct b
      | |- quiet (match ?x with _ => _ end) => destruct x
      end ].

Lemma quiet_for_each {A : Type} (body : A -> M unit) (xs : list A) :
  (forall x, quiet (body x)) -> quiet (for_each body xs).
Proof. intros Hb. induction xs as [|x xs IH]; simpl; quiet_tac; auto. Qed.

Lemma quiet_alloc_all (os : list ConfigOption) : quiet (alloc_all os).
Proof. induction os as [|o os IH]; simpl; quiet_tac; auto. Qed.

Lemma quiet_deref_all (rs : list nat) : quiet (deref_all rs).
Proof. induction rs as [|r rs IH]; simpl; quiet_tac; auto. Qed.

Lemma quiet_parse (safe_load : string -> option value) (repr_container : value -> string)
    (w : world) (chart_path : string) (kata_version : value)
    (exclude : option (list string)) :
  quiet (parse_kata_deploy_values safe_load repr_container w chart_path kata_version
           exclude).
Proof.
  unfold parse_kata_deploy_values, fetch_github_readme, path_exists, read_text, read_file, load, print.
  quiet_tac; try apply quiet_alloc_all.
  all: apply quiet_for_each; intros r; unfold resolve_description; quiet_tac.
Qed.

Lemma quiet_read_all (w : world) (ps : list string) (c : string) :
  quiet (read_all w c ps).
Proof.
  revert c. induction ps as [|p ps IH]; intros c; simpl; [quiet_tac|].
  apply quiet_bind; [|apply IH]. unfold read_into, path_exists, read_text, read_file. quiet_tac.
Qed.

Lemma quiet_classify (all_content alias : string) (options : list nat) :
  forall documented undocumented,
  quiet (classify all_content alias options documented undocumented).
Proof.
  induction options as [|r rest IH]; intros documented undocumented;
    cbn [classify]; [quiet_tac|].
  apply quiet_bind; [quiet_tac|]. intros o.
  destruct (first_hit (patterns_of alias o) all_content);
    [apply quiet_bind; [quiet_tac | intros _]|]; apply IH.
Qed.

Lemma quiet_check_documentation (w : world) (options : list nat) (our_values : string)
    (doc_files : list string) (alias : string) :
  quiet (check_documentation w options our_values doc_files alias).
Proof.
  unfold check_documentation.
  apply quiet_bind; [unfold read_into, path_exists, read_text, read_file; quiet_tac|]. intros c.
  apply quiet_bind; [apply quiet_read_all|]. intros all_content. apply quiet_classify.
Qed.

Lemma quiet_generate_report (repr_container : value -> string)
    (format_pct : nat -> nat -> string) (w : world) (kata_version : value)
    (documented undocumented : list nat) (fmt alias : string) :
  quiet (generate_report repr_container format_pct w kata_version documented
           undocumented fmt alias).
Proof.
  unfold generate_report, stat_tmp, coverage.
  destruct (String.eqb fmt "github").
  - apply quiet_bind; [quiet_tac|]. intros mtime.
    apply quiet_bind; [quiet_tac|]. intros cov.
    apply quiet_bind.
    + destruct (nonempty undocumented); [|quiet_tac].
      apply quiet_bind; [apply quiet_deref_all | intros os; quiet_tac].
    + intros report. destruct (nonempty documented); [|quiet_tac].
      apply quiet_bind; [apply quiet_deref_all | intros os; quiet_tac].
  - apply quiet_bind; [quiet_tac|]. intros cov.
    destruct (nonempty undocumented); [|quiet_tac].
    apply quiet_bind; [apply quiet_deref_all | intros os; quiet_tac].
Qed.

Lemma quiet_resolve_version (safe_load : string -> option value) (w : world) :
  quiet (resolve_version safe_load w).
Proof.
  intros s. destruct (resolve_version_run safe_load w s) as (r & -> & _).
  eexists. split; [reflexivity|]. unfold manifest_events.
  by destruct (files w "Chart.yaml"); repeat constructor.
Qed.

Lemma quiet_exit_with_code (a : args) (undocumented : list nat) :
  quiet (exit_with_code a undocumented).
Proof. unfold exit_with_code, print. quiet_tac. Qed.

Lemma quiet_run {A : Type} (m : M A) (s : state) :
  quiet m ->
  exists r s' l, m s = (r, s') /\ trace s' = trace s ++ l /\ Forall writes_nothing l.
Proof.
  intros Hq. destruct (Hq s) as (l & Hl & Hql).
  destruct (m s) as [r s'] eqn:E. by exists r, s', l.
Qed.

(** Up to the saved report: either no file is written, or the run ends by
    printing the report, saving the same text and printing where. *)
Lemma report_stages_trace (safe_load : string -> option value)
    (repr_container : value -> string) (format_pct : nat -> nat -> string)
    (w : world) (a : args) (kata_version : value) (s : state) :
  exists r s' l,
    report_stages safe_load repr_container format_pct w a kata_version s = (r, s')
    /\ trace s' = trace s ++ l
    /\ (Forall writes_nothing l
        \/ exists l1 report,
             l = l1 ++ [EvPrint (Py.nl +:+ report); EvWrite report_file report;
                        EvPrint (Py.nl +:+ "💾 Report saved to " +:+ report_file)]
             /\ Forall writes_nothing l1).
Proof.
  unfold report_stages, mbind, M_bind.
  unfold print at 1 2 3. unfold emit. cbn [heap trace].
  match goal with |- context [parse_kata_deploy_values ?sl ?rc ?w0 ?c ?k ?e ?s0] =>
    destruct (quiet_run (parse_kata_deploy_values sl rc w0 c k e) s0
                (quiet_parse sl rc w0 c k e)) as (r1 & s1 & l1 & -> & Ht1 & Hq1) end.
  cbn [trace] in Ht1. rewrite <- !app_assoc in Ht1.
  destruct r1 as [e | options].
  { eexists _, _, _. split; [reflexivity|]. split; [exact Ht1|]. left.
    repeat (apply Forall_cons; split; [exact I|]). done. }
  unfold print at 1 2. unfold emit. cbn [heap trace].
  match goal with |- context [check_documentation ?w0 ?o ?v ?d ?al ?s0] =>
    destruct (quiet_run (check_documentation w0 o v d al) s0
                (quiet_check_documentation w0 o v d al))
      as (r2 & s2 & l2 & -> & Ht2 & Hq2) end.
  cbn [trace] in Ht2. rewrite Ht1, <- !app_assoc in Ht2.
  destruct r2 as [e | [documented undocumented]].
  { eexists _, _, _. split; [reflexivity|]. split; [exact Ht2|]. left.
    repeat first [apply Forall_cons; split; [exact I|] | apply Forall_app; split]; done. }
  match goal with |- context [generate_report ?rc ?fp ?w0 ?k ?d ?u ?f ?al ?s0] =>
    destruct (quiet_run (generate_report rc fp w0 k d u f al) s0
                (quiet_generate_report rc fp w0 k d u f al))
      as (r3 & s3 & l3 & -> & Ht3 & Hq3) end.
  rewrite Ht2, <- !app_assoc in Ht3.
  destruct r3 as [e | report].
  { eexists _, _, _. split; [reflexivity|]. split; [exact Ht3|]. left.
    repeat first [apply Forall_cons; split; [exact I|] | apply Forall_app; split]; done. }
  match type of Ht3 with _ = _ ++ ?l => set (before := l) in * end.
  assert (Hbefore : Forall writes_nothing before).
  { unfold before.
    repeat first [apply Forall_cons; split; [exact I|] | apply Forall_app; split]; done. }
  clearbody before.
  unfold print at 1. unfold emit, write_tmp. cbn [heap trace].
  destruct (tmp_mtime w) as [mtime|].
  - unfold emit, print, mret, M_ret. cbn [heap trace].
    eexists _, _,
      (before ++ [EvPrint (Py.nl +:+ report); EvWrite report_file report;
                  EvPrint (Py.nl +:+ "💾 Report saved to " +:+ report_file)]).
    split; [reflexivity|]. cbn [trace]. rewrite Ht3.
    split; [by rewrite <- !app_assoc|]. right. by exists before, report.
  - unfold raise.
    eexists _, _, (before ++ [EvPrint (Py.nl +:+ report)]).
    split; [reflexivity|]. cbn [trace]. rewrite Ht3.
    split; [by rewrite <- !app_assoc|]. left.
    apply Forall_app. split; [done | by repeat constructor].
Qed.

(** X16. A run writes at most one file.  Either it writes nothing at all,
    or its single write is the report, under [/tmp/validation-report.md],
    holding letter for letter the text it has just printed. *)
Theorem main_saves_what_it_prints (safe_load : string -> option value)
    (repr_container : value -> string) (format_pct : nat -> nat -> string)
    (w : world) (a : args) (s : state) :
  exists l,
    trace (main safe_load repr_container format_pct w a s).2 = trace s ++ l
    /\ (Forall writes_nothing l
        \/ exists l1 report l2,
             l = l1 ++ [EvPrint (Py.nl +:+ report); EvWrite report_file report] ++ l2
             /\ Forall writes_nothing l1 /\ Forall writes_nothing l2).
Proof.
  unfold main, stages, mbind, M_bind.
  destruct (quiet_run (resolve_version safe_load w) s (quiet_resolve_version safe_load w))
    as (r0 & s0 & l0 & -> & Ht0 & Hq0).
  destruct r0 as [e | kata_version]; [exists l0; by split; [|left]|].
  destruct (report_stages_trace safe_load repr_container format_pct w a kata_version s0)
    as (r1 & s1 & l1 & -> & Ht1 & Hl1).
  rewrite Ht0, <- app_assoc in Ht1.
  destruct r1 as [e | undocumented].
  - exists (l0 ++ l1). split; [done|].
    destruct Hl1 as [Hq1 | (l1' & report & -> & Hq1)]; [left; by apply Forall_app|].
    right. exists (l0 ++ l1'), report,
      [EvPrint (Py.nl +:+ "💾 Report saved to " +:+ report_file)].
    split; [by rewrite <- !app_assoc|]. split; [by apply Forall_app|]. by repeat constructor.
  - destruct (quiet_run (exit_with_code a undocumented) s1
                (quiet_exit_with_code a undocumented)) as (r2 & s2 & l2 & -> & Ht2 & Hq2).
    rewrite Ht1 in Ht2. cbn [snd]. exists (l0 ++ l1 ++ l2).
    split; [by rewrite Ht2, <- !app_assoc|].
    destruct Hl1 as [Hq1 | (l1' & report & -> & Hq1)].
    + left. by repeat (apply Forall_app; split).
    + right. exists (l0 ++ l1'), report,
        (EvPrint (Py.nl +:+ "💾 Report saved to " +:+ report_file) :: l2).
      split; [by rewrite <- !app_assoc|]. split; [by apply Forall_app|].
      by apply Forall_cons.
Qed.





(** ** The coordinator: the manifest and the missing values file *)

(** X18. When the manifest is missing, or is a mapping whose
    [dependencies] is missing or is a list of mappings none of which names
    kata-deploy, the version label is [unknown], nothing is raised, and the
    run goes on with the stages under that label. *)
Theorem resolve_version_unknown (safe_load : string -> option value)
    (repr_container : value -> string) (format_pct : nat -> nat -> string)
    (w : world) (a : args) (s : state) :
  files w "Chart.yaml" = None
  \/ (exists text chart_data,
        files w "Chart.yaml" = Some text /\ safe_load text = Some chart_data
        /\ well_formed_manifest chart_data
        /\ forall dep, dep ∈ dependency_entries chart_data -> ~ names_kata_deploy dep) ->
  let s' := mkState (heap s) (trace s ++ manifest_events w) in
  resolve_version safe_load w s = (inr (VStr "unknown"), s')
  /\ main safe_load repr_container format_pct w a s
     = stages safe_load repr_container format_pct w a (VStr "unknown") s'.
Proof.
  intros Hm s'.
  assert (Hr : resolve_version safe_load w s = (inr (VStr "unknown"), s')).
  { subst s'. unfold resolve_version, manifest_events. run_step.
    destruct Hm as [-> | (text & chart_data & -> & Hload & Hwf & Hnone)]; [done|].
    cbn [fst snd heap trace]. rewrite <- app_assoc. rewrite Hload.
    destruct Hwf as (items & deps & -> & Hdeps & Hdict).
    unfold dependency_entries in Hnone. simpl. rewrite Hdeps in *. simpl.
    apply find_version_unpinned. intros dep Hin. split; [by apply Hdict | by apply Hnone]. }
  split; [done|]. unfold main, mbind, M_bind. by rewrite Hr.
Qed.

Lemma resolve_version_unknown_witness :
  let s' := mkState (heap start) (trace start ++ manifest_events Scenario.unpinned_manifest) in
  resolve_version Scenario.safe_load Scenario.unpinned_manifest start
    = (inr (VStr "unknown"), s')
  /\ main Scenario.safe_load Scenario.repr_container Scenario.format_pct
       Scenario.unpinned_manifest Scenario.cli start
     = stages Scenario.safe_load Scenario.repr_container Scenario.format_pct
         Scenario.unpinned_manifest Scenario.cli (VStr "unknown") s'.
Proof.
  apply resolve_version_unknown. right.
  exists "unpinned", Scenario.unpinned. split; [reflexivity|]. split; [reflexivity|].
  split.
  - exists [("name", VStr "confidential-containers")], []. split; [reflexivity|].
    split; [reflexivity|]. intros dep Hdep. by apply elem_of_nil in Hdep.
  - intros dep Hdep. vm_compute in Hdep. by apply elem_of_nil in Hdep.
Defined.

(** X19. When the upstream chart has no [values.yaml] and the version
    lookup has returned, the process prints the three progress lines, looks
    for the file under the name its path gives, prints the error line with
    that name and exits with status 1.  No option is created, no other file
    is looked for and nothing is written. *)
Theorem missing_values_is_fatal (safe_load : string -> option value)
    (repr_container : value -> string) (format_pct : nat -> nat -> string)
    (w : world) (a : args) (kata_version : value) (s s0 : state) :
  files w (path_join (kata_deploy_chart a) "values.yaml") = None ->
  resolve_version safe_load w s = (inr kata_version, s0) ->
  main safe_load repr_container format_pct w a s
  = (inl (SystemExit 1),
     mkState (heap s)
       (trace s ++ manifest_events w
        ++ missing_values_events (str_value repr_container kata_version)
             (kata_deploy_chart a)))
  /\ exit_status (main safe_load repr_container format_pct w a s).1 = 1.
Proof.
  intros Hmissing Hversion.
  destruct (resolve_version_run safe_load w s) as (r & Hr & _).
  rewrite Hr in Hversion. injection Hversion as -> <-.
  assert (Hmain : main safe_load repr_container format_pct w a s
                  = (inl (SystemExit 1),
                     mkState (heap s)
                       (trace s ++ manifest_events w
                        ++ missing_values_events (str_value repr_container kata_version)
                             (kata_deploy_chart a)))).
  { unfold main, mbind, M_bind. rewrite Hr, stages_missing by done.
    cbn [heap trace]. by rewrite <- app_assoc. }
  by rewrite Hmain.
Qed.

Lemma missing_values_is_fatal_witness :
  main Scenario.safe_load Scenario.repr_container Scenario.format_pct
    Scenario.no_values Scenario.cli start
  = (inl (SystemExit 1),
     mkState (heap start)
       (trace start ++ manifest_events Scenario.no_values
        ++ missing_values_events (str_value Scenario.repr_container (VStr "3.21.0"))
             (kata_deploy_chart Scenario.cli)))
  /\ exit_status (main Scenario.safe_load Scenario.repr_container Scenario.format_pct
                    Scenario.no_values Scenario.cli start).1 = 1.
Proof.
  apply (missing_values_is_fatal Scenario.safe_load Scenario.repr_container
           Scenario.format_pct Scenario.no_values Scenario.cli (VStr "3.21.0") start
           (mkState [] [EvExists "Chart.yaml"; EvRead "Chart.yaml"]));
    reflexivity.
Defined.

(** ** Descriptions come from the reference table *)

Lemma captures_other (n : Re.node) (r : Re.regex) (t1 t2 g : string) :
  (forall x, n <> Re.Group x) ->
  node_lang n t1 -> captures r t2 g -> captures (n :: r) (t1 +:+ t2) g.
Proof.
  intros Hn H1 H2. destruct n as [x|x|x|x]; try (by exists t1, t2).
  by destruct (Hn x).
Qed.

Lemma captures_star_grow (x : Re.cset) (r : Re.regex) (c : ascii) (t g : string) :
  Re.accepts x c = true ->
  captures (Re.Star x :: r) t g -> captures (Re.Star x :: r) (String c t) g.
Proof.
  intros Hc (t1 & t2 & -> & H1 & H2).
  exists (String c t1), t2. split; [done|]. split; [|done].
  cbn [node_lang all_chars] in *. by rewrite Hc, H1.
Qed.

(** What the matcher returns as group 1 is what the group has read. *)
Lemma match_here_captures (r : Re.regex) :
  forall s g rest, Re.match_here r s = Some (g, rest) ->
  exists t, s = t +:+ rest /\ captures r t g.
Proof.
  induction r as [|n r IH]; intros s g rest Hm.
  - cbn [Re.match_here] in Hm. injection Hm as <- ->. by exists "".
  - destruct n as [x|x|x|x].
    + destruct s as [|c s]; [done|]. cbn [Re.match_here] in Hm.
      destruct (Re.accepts x c) eqn:Hc; [|done].
      destruct (IH _ _ _ Hm) as (t & -> & Ht).
      exists (String c t). split; [done|].
      apply (captures_other (Re.One x) r (String c "") t); [done | by exists c | done].
    + revert g rest Hm. induction s as [|c s IHs]; intros g rest Hm.
      * rewrite match_here_star in Hm.
        destruct (IH _ _ _ Hm) as (t & -> & Ht).
        exists t. split; [done|]. by exists "", t.
      * rewrite match_here_star in Hm.
        assert (Hskip : forall g rest, Re.match_here r (String c s) = Some (g, rest) ->
                  exists t, String c s = t +:+ rest /\ captures (Re.Star x :: r) t g).
        { intros g' rest' H'. destruct (IH _ _ _ H') as (t & Heq & Ht).
          exists t. split; [done|]. by exists "", t. }
        destruct (Re.accepts x c) eqn:Hc; [|by apply Hskip].
        destruct (Re.match_here (Re.Star x :: r) s) as [[g' rest']|] eqn:Hs;
          [|by apply Hskip].
        injection Hm as -> ->.
        destruct (IHs _ _ eq_refl) as (t & -> & Ht).
        exists (String c t). split; [done|]. by apply captures_star_grow.
    + assert (Hskip : forall g rest, Re.match_here r s = Some (g, rest) ->
                exists t, s = t +:+ rest /\ captures (Re.Opt x :: r) t g).
      { intros g' rest' H'. destruct (IH _ _ _ H') as (t & Heq & Ht).
        exists t. split; [done|]. exists "", t. split; [done|]. split; [by left | done]. }
      destruct s as [|c s]; cbn [Re.match_here] in Hm; [by apply Hskip|].
      destruct (Re.accepts x c) eqn:Hc; [|by apply Hskip].
      destruct (Re.match_here r s) as [[g' rest']|] eqn:Hs; [|by apply Hskip].
      injection Hm as -> ->.
      destruct (IH _ _ _ Hs) as (t & -> & Ht).
      exists (String c t). split; [done|].
      apply (captures_other (Re.Opt x) r (String c "") t); [done | | done].
      right. by exists c.
    + revert g rest Hm. induction s as [|c s IHs]; intros g rest Hm.
      * by rewrite match_here_group in Hm.
      * rewrite match_here_group in Hm.
        destruct (Re.accepts x c) eqn:Hc; [|done].
        destruct (Re.match_here (Re.Group x :: r) s) as [[g' rest']|] eqn:Hs.
        -- injection Hm as <- ->.
           destruct (IHs _ _ eq_refl) as (t & -> & (t2 & -> & [_ Hg] & Ht2)).
           exists (String c (g' +:+ t2)). split; [done|].
           exists t2. split; [done|]. split; [|done].
           split; [done|]. cbn [all_chars]. by rewrite Hc, Hg.
        -- destruct (Re.match_here r s) as [[g' rest']|] eqn:Hr; [|done].
           injection Hm as <- ->.
           destruct (match_here_sound _ _ _ _ Hr) as (t & -> & Ht).
           exists (String c t). split; [done|].
           exists t. split; [done|]. split; [|done].
           split; [done|]. cbn [all_chars]. by rewrite Hc.
Qed.

Lemma search_captures (r : Re.regex) (s g : string) :
  Re.search r s = Some g -> exists a t b, s = a +:+ t +:+ b /\ captures r t g.
Proof.
  induction s as [|c s IH]; rewrite search_unfold.
  - destruct (Re.match_here r "") as [[g' rest]|] eqn:Hm; [|done].
    intros [= ->]. destruct (match_here_captures _ _ _ _ Hm) as (t & Heq & Ht).
    by exists "", t, rest.
  - destruct (Re.match_here r (String c s)) as [[g' rest]|] eqn:Hm.
    + intros [= ->]. destruct (match_here_captures _ _ _ _ Hm) as (t & Heq & Ht).
      by exists "", t, rest.
    + intros H. destruct (IH H) as (a & t & b & -> & Ht).
      by exists (String c a), t, b.
Qed.

Lemma captures_escape (p : string) (r : Re.regex) :
  forall t g, captures (Re.escape p ++ r) t g ->
  exists u t2, t = u +:+ t2 /\ same_text p u /\ captures r t2 g.
Proof.
  induction p as [|c p IH]; intros t g H.
  - by exists "", t.
  - cbn [Re.escape app captures] in H.
    destruct H as (t1 & t2 & -> & (c' & -> & Hc) & H).
    destruct (IH _ _ H) as (u & t3 & -> & Hu & H3).
    exists (String c' u), t3. split; [done|]. split; [|done].
    unfold same_text in *. cbn [casefold]. cbn [Re.accepts] in Hc.
    apply Ascii.eqb_eq in Hc. by rewrite Hc, Hu.
Qed.

Lemma node_lang_tick (t : string) : node_lang (Re.Opt (Re.CChar "`")) t -> tick t.
Proof.
  intros [-> | (c & -> & Hc)]; [by left|].
  apply accepts_marker in Hc as ->; [by right | auto].
Qed.

(** The description pattern reads a cell holding the path and captures the
    cell after it. *)
Lemma description_captures (p t g : string) :
  captures (description_pattern p) t g ->
  exists m1 q1 u q2 m2,
    t = "|" +:+ m1 +:+ q1 +:+ u +:+ q2 +:+ m2 +:+ "|" +:+ g +:+ "|"
    /\ blank m1 /\ tick q1 /\ same_text p u /\ tick q2 /\ blank m2
    /\ g <> "" /\ no_pipe g.
Proof.
  unfold description_pattern. cbn [app captures].
  intros (t1 & t2 & -> & (c & -> & Hc) & (m1 & t3 & -> & Hm1 & (q1 & t4 & -> & Hq1 & H))).
  apply accepts_marker in Hc as ->; [|auto].
  apply captures_escape in H as (u & t5 & -> & Hu & H).
  cbn [captures] in H.
  destruct H as (q2 & t6 & -> & Hq2 & (m2 & t7 & -> & Hm2
                 & (k & t8 & -> & (c' & -> & Hc') & (t9 & -> & [Hne Hg] & Hlast)))).
  apply accepts_marker in Hc' as ->; [|auto].
  cbn [lang] in Hlast. destruct Hlast as (k & e & -> & (c'' & -> & Hc'') & ->).
  apply accepts_marker in Hc'' as ->; [|auto].
  exists m1, q1, u, q2, m2. split; [done|].
  split; [exact Hm1|]. split; [by apply node_lang_tick|]. split; [done|].
  split; [by apply node_lang_tick|]. split; [exact Hm2|]. split; [done | exact Hg].
Qed.

Lemma search_described (readme p g : string) :
  Re.search (description_pattern p) readme = Some g ->
  described_in readme p (Py.strip g).
Proof.
  intros (a & t & b & -> & Ht)%search_captures.
  apply description_captures in Ht
    as (m1 & q1 & u & q2 & m2 & -> & Hm1 & Hq1 & Hu & Hq2 & Hm2 & Hne & Hg).
  exists a, m1, q1, u, q2, m2, g, b.
  split; [by rewrite !append_assoc|]. done.
Qed.

(** Resolving descriptions leaves every path alone, and a description it
    changes is a cell of the table. *)
Lemma resolve_descriptions_cells (content : string) (rs : list nat) :
  forall s, valid_refs s rs ->
  exists h',
    for_each (resolve_description content) rs s = (inr tt, mkState h' (trace s))
    /\ forall j o, heap s !! j = Some o ->
         exists o', h' !! j = Some o' /\ path o' = path o
                    /\ (description o' = description o
                        \/ described_in content (path o) (description o')).
Proof.
  induction rs as [|r rs IH]; intros s Hvalid.
  - exists (heap s). cbn [for_each]. split; [by destruct s|].
    intros j o Ho. exists o. by split; [|split; [|left]].
  - apply Forall_cons in Hvalid as [Hr Hvalid].
    apply lookup_lt_is_Some_2 in Hr as [o0 Ho0].
    cbn [for_each]. unfold mbind, M_bind.
    rewrite (resolve_description_run content r s o0 Ho0).
    destruct (Re.search (description_pattern (path o0)) content) as [g|] eqn:Hsearch.
    + set (s1 := mkState (<[r := set_description (Py.strip g) o0]> (heap s)) (trace s)).
      assert (Hvalid1 : valid_refs s1 rs).
      { unfold valid_refs, s1. cbn [heap]. by rewrite length_insert. }
      destruct (IH s1 Hvalid1) as (h' & -> & Hobj).
      exists h'. split; [done|].
      intros j o Ho. unfold s1 in Hobj. cbn [heap] in Hobj.
      destruct (decide (j = r)) as [-> | Hne].
      * rewrite Ho0 in Ho. injection Ho as <-.
        destruct (Hobj r (set_description (Py.strip g) o0)) as (o' & Ho' & Hp & Hd).
        { apply list_lookup_insert_eq. by eapply lookup_lt_Some. }
        exists o'. split; [done|]. split; [done|]. right.
        destruct Hd as [-> | Hd]; [|done]. by apply search_described.
      * destruct (Hobj j o) as (o' & Ho' & Hp & Hd).
        { by rewrite list_lookup_insert_ne. }
        by exists o'.
    + replace (mkState (heap s) (trace s)) with s by by destruct s.
      destruct (IH s Hvalid) as (h' & -> & Hobj). by exists h'.
Qed.

(** X20. With a README beside the upstream chart, on 7-bit text, the
    description of every parsed option is either empty or the cell, with
    the white space around it removed, that follows a cell holding the
    option's path (bare or in backticks, case ignored) in a table row of
    that README: a description is never taken from anywhere else. *)
Theorem parse_descriptions_from_table (safe_load : string -> option value)
    (repr_container : value -> string) (w : world)
    (chart_path text readme : string) (values kata_version : value)
    (exclude : list string) (s : state) :
  files w (path_join chart_path "values.yaml") = Some text ->
  safe_load text = Some values ->
  files w (path_join chart_path "README.md") = Some readme ->
  seven_bit readme ->
  let extracted := extract_options exclude values "" in
  exists s',
    parse_kata_deploy_values safe_load repr_container w chart_path kata_version
      (Some exclude) s = (inr (seq (length (heap s)) (length extracted)), s')
    /\ forall i o, extracted !! i = Some o -> seven_bit (path o) ->
         exists o',
           heap s' !! (length (heap s) + i) = Some o'
           /\ path o' = path o
           /\ (description o' = ""
               \/ described_in (Py.universal_newlines readme) (path o) (description o')).
Proof.
  intros Hfile Hload Hreadme _ extracted.
  assert (Hnew : forall i o, extracted !! i = Some o ->
            (heap s ++ extracted) !! (length (heap s) + i) = Some o /\ description o = "").
  { intros i o Ho. split.
    - by rewrite lookup_app_r, Nat.add_comm, Nat.add_sub by lia.
    - apply list_elem_of_lookup_2 in Ho.
      by apply extract_options_spec in Ho as (key & p & v & _ & _ & ->). }
  unfold parse_kata_deploy_values.
  run_step. rewrite Hfile. cbn [negb]. run_step. rewrite Hload. cbn [fst snd].
  rewrite alloc_all_run. fold extracted. cbn [heap trace]. run_step. rewrite Hreadme.
  cbn [fst snd heap trace].
  destruct (Py.truthy (Py.universal_newlines readme)).
  - match goal with |- context [for_each _ _ (mkState _ ?t)] =>
      destruct (resolve_descriptions_cells (Py.universal_newlines readme) _ _
                  (seq_valid (heap s) extracted t)) as (h' & -> & Hobj) end.
    eexists. split; [reflexivity|]. cbn [heap] in *.
    intros i o Ho _. destruct (Hnew i o Ho) as [Hi Hd].
    destruct (Hobj _ o Hi) as (o' & Ho' & Hp & Hcell).
    exists o'. split; [done|]. split; [done|]. rewrite Hd in Hcell. done.
  - eexists. split; [reflexivity|]. cbn [heap].
    intros i o Ho _. destruct (Hnew i o Ho) as [Hi Hd].
    exists o. split; [done|]. split; [done|]. by left.
Qed.

Lemma parse_descriptions_from_table_witness :
  let extracted := extract_options exclude_options Scenario.tree "" in
  exists s',
    parse_kata_deploy_values Scenario.safe_load Scenario.repr_container
      Scenario.with_readme "upstream" (VStr "3.21.0") (Some exclude_options) start
      = (inr (seq (length (heap start)) (length extracted)), s')
    /\ forall i o, extracted !! i = Some o -> seven_bit (path o) ->
         exists o',
           heap s' !! (length (heap start) + i) = Some o'
           /\ path o' = path o
           /\ (description o' = ""
               \/ described_in
                    (Py.universal_newlines "| `env.debug` | Enable debug logging | `false` |")
                    (path o) (description o')).
Proof.
  apply (parse_descriptions_from_table Scenario.safe_load Scenario.repr_container
           Scenario.with_readme "upstream" "tree"
           "| `env.debug` | Enable debug logging | `false` |" Scenario.tree
           (VStr "3.21.0") exclude_options start); reflexivity.
Defined.
